(** * tika.unpack: decoding the tar response of the /unpack/all service

    A shallow embedding of [src/tika/unpack.py] and a verification of the
    archive-decoding contract stated in the specification.

    The module is written against the Python standard library: the
    [unicode-escape], [ascii] and [utf8] codecs, [io.TextIOWrapper],
    [tarfile] and [csv].  The codecs and the newline handling of
    [TextIOWrapper.read] are modelled concretely, after CPython; the tar
    reader, the CSV reader and the line iterator of a locale-encoded
    [TextIOWrapper] are parameters of the development.

    The embedding follows the branches taken when [version_info.major >= 3]. *)

From Stdlib Require Import ZArith List Ascii String Lia Bool.
From stdpp Require Import base option list gmap strings.

Local Open Scope Z_scope.

(** ** Python values *)

(** A [bytes] object: one [Z] in [0, 256) per byte.  A [str]: one [Z] in
    [0, 0x110000) per code point. *)
Abbreviation bytes := (list Z) (only parsing).
Abbreviation str := (list Z) (only parsing).

Definition is_byte (b : Z) : Prop := 0 <= b < 256.
Definition is_bytes (s : bytes) : Prop := Forall is_byte s.

Definition MAX_UNICODE : Z := 1114111.
Definition is_code_point (c : Z) : Prop := 0 <= c <= MAX_UNICODE.
Definition is_str (s : str) : Prop := Forall is_code_point s.

Definition ord (c : ascii) : Z := Z.of_N (N_of_ascii c).

(** A [str] literal. *)
Definition lit (s : string) : str := map ord (list_ascii_of_string s).

(** ** Exceptions *)

Inductive exn : Type :=
| AssertionError
| KeyError
| IndexError
| UnicodeDecodeError
| UnicodeEncodeError
| ReadError        (* tarfile.ReadError *)
| CsvError         (* csv.Error *)
| EOFError
| OSError
| OtherError (cls : string).   (* any other class, by its name *)

Inductive Exc (A : Type) : Type :=
| Ok (a : A)
| Raise (e : exn).
Arguments Ok {A} a.
Arguments Raise {A} e.

Definition exc_bind {A B} (m : Exc A) (k : A -> Exc B) : Exc B :=
  match m with
  | Ok a => k a
  | Raise e => Raise e
  end.

Definition exc_map {A B} (f : A -> B) (m : Exc A) : Exc B :=
  exc_bind m (fun a => Ok (f a)).

Fixpoint exc_mapM {A B} (f : A -> Exc B) (l : list A) : Exc (list B) :=
  match l with
  | [] => Ok []
  | x :: l' =>
      exc_bind (f x) (fun y => exc_bind (exc_mapM f l') (fun ys => Ok (y :: ys)))
  end.

(** ** The codecs *)

Module Codec.

(** [Py_hexdigits]: "0123456789abcdef". *)
Definition Py_hexdigits (n : Z) : Z :=
  if n <? 10 then ord "0" + n else ord "a" + (n - 10).

Definition hexdigit_at (ch : Z) (shift : Z) : Z :=
  Py_hexdigits (Z.land (Z.shiftr ch shift) 15).

(** One iteration of the loop of [PyUnicode_AsUnicodeEscapeString]. *)
Definition escape_char (ch : Z) : bytes :=
  if ch <? 256 then
    if (32 <=? ch) && (ch <? 127) then
      if negb (ch =? ord "\") then [ch]
      else [ord "\"; ord "\"]
    else if ch =? 9 then [ord "\"; ord "t"]
    else if ch =? 10 then [ord "\"; ord "n"]
    else if ch =? 13 then [ord "\"; ord "r"]
    else [ord "\"; ord "x"; hexdigit_at ch 4; hexdigit_at ch 0]
  else if ch <? 65536 then
    [ord "\"; ord "u";
     hexdigit_at ch 12; hexdigit_at ch 8; hexdigit_at ch 4; hexdigit_at ch 0]
  else
    [ord "\"; ord "U"; ord "0"; ord "0";
     hexdigit_at ch 20; hexdigit_at ch 16; hexdigit_at ch 12;
     hexdigit_at ch 8; hexdigit_at ch 4; hexdigit_at ch 0].

(** [s.encode('unicode-escape')] *)
Definition unicode_escape_encode (s : str) : bytes := flat_map escape_char s.

(** The value of a hexadecimal digit, as the [hexescape] loop reads it. *)
Definition hexval (c : Z) : option Z :=
  if (ord "0" <=? c) && (c <=? ord "9") then Some (c - ord "0")
  else if (ord "a" <=? c) && (c <=? ord "f") then Some (c - (ord "a" - 10))
  else if (ord "A" <=? c) && (c <=? ord "F") then Some (c - (ord "A" - 10))
  else None.

(** [for (ch = 0; count; ++s, --count) { ch <<= 4; ch += digit }] *)
Fixpoint hexescape (ch : Z) (digits : list Z) : option Z :=
  match digits with
  | [] => Some ch
  | c :: digits' =>
      match hexval c with
      | Some v => hexescape (Z.shiftl ch 4 + v) digits'
      | None => None
      end
  end.

Definition is_octal (c : Z) : bool := (ord "0" <=? c) && (c <=? ord "7").

(** [WRITE_CHAR(ch); continue;] *)
Definition write_char (ch : Z) (rest : Exc str) : Exc str :=
  exc_map (cons ch) rest.

(** The end of a hex escape: the value must be a code point. *)
Definition write_hex (v : option Z) (rest : Exc str) : Exc str :=
  match v with
  | Some ch => if ch >? MAX_UNICODE then Raise UnicodeDecodeError
               else write_char ch rest
  | None => Raise UnicodeDecodeError
  end.

Section Decode.

(** The name lookup of [unicodedata] behind [\N{...}]. *)
Variable getcode : bytes -> option Z.

(** [b.decode('unicode-escape')], errors='strict'
    ([_PyUnicode_DecodeUnicodeEscapeInternal]). *)
Fixpoint unicode_escape_decode (s : bytes) : Exc str :=
  match s with
  | [] => Ok []
  | c :: s1 =>
    if negb (c =? ord "\") then write_char c (unicode_escape_decode s1)
    else
      match s1 with
      | [] => Raise UnicodeDecodeError   (* \ at end of string *)
      | c :: s2 =>
        if c =? 10 then unicode_escape_decode s2
        else if c =? ord "\" then write_char (ord "\") (unicode_escape_decode s2)
        else if c =? ord "'" then write_char (ord "'") (unicode_escape_decode s2)
        else if c =? 34 then write_char 34 (unicode_escape_decode s2)
        else if c =? ord "b" then write_char 8 (unicode_escape_decode s2)
        else if c =? ord "f" then write_char 12 (unicode_escape_decode s2)
        else if c =? ord "t" then write_char 9 (unicode_escape_decode s2)
        else if c =? ord "n" then write_char 10 (unicode_escape_decode s2)
        else if c =? ord "r" then write_char 13 (unicode_escape_decode s2)
        else if c =? ord "v" then write_char 11 (unicode_escape_decode s2)
        else if c =? ord "a" then write_char 7 (unicode_escape_decode s2)
        else if is_octal c then
          (* \OOO: up to three octal digits *)
          let ch := c - ord "0" in
          match s2 with
          | d1 :: s3 =>
            if is_octal d1 then
              let ch := Z.shiftl ch 3 + d1 - ord "0" in
              match s3 with
              | d2 :: s4 =>
                if is_octal d2 then
                  write_char (Z.shiftl ch 3 + d2 - ord "0")
                             (unicode_escape_decode s4)
                else write_char ch (unicode_escape_decode s3)
              | [] => write_char ch (unicode_escape_decode s3)
              end
            else write_char ch (unicode_escape_decode s2)
          | [] => write_char ch (unicode_escape_decode s2)
          end
        else if c =? ord "x" then
          match s2 with
          | h1 :: h2 :: s4 =>
              write_hex (hexescape 0 [h1; h2]) (unicode_escape_decode s4)
          | _ => Raise UnicodeDecodeError   (* truncated \xXX escape *)
          end
        else if c =? ord "u" then
          match s2 with
          | h1 :: h2 :: h3 :: h4 :: s6 =>
              write_hex (hexescape 0 [h1; h2; h3; h4]) (unicode_escape_decode s6)
          | _ => Raise UnicodeDecodeError   (* truncated \uXXXX escape *)
          end
        else if c =? ord "U" then
          match s2 with
          | h1 :: h2 :: h3 :: h4 :: h5 :: h6 :: h7 :: h8 :: s10 =>
              write_hex (hexescape 0 [h1; h2; h3; h4; h5; h6; h7; h8])
                        (unicode_escape_decode s10)
          | _ => Raise UnicodeDecodeError   (* truncated \UXXXXXXXX escape *)
          end
        else if c =? ord "N" then
          match s2 with
          | b :: s3 =>
            if b =? ord "{" then
              (* look for the closing brace *)
              (fix scan (name : bytes) (s : bytes) {struct s} : Exc str :=
                 match s with
                 | [] => Raise UnicodeDecodeError   (* malformed \N escape *)
                 | c :: s' =>
                   if c =? ord "}" then
                     match name with
                     | [] => Raise UnicodeDecodeError
                     | _ :: _ =>
                       match getcode name with
                       | Some ch => write_char ch (unicode_escape_decode s')
                       | None => Raise UnicodeDecodeError   (* unknown name *)
                       end
                     end
                   else scan (name ++ [c]) s'
                 end) [] s3
            else Raise UnicodeDecodeError
          | [] => Raise UnicodeDecodeError
          end
        else
          (* an unknown escape is kept as it is *)
          write_char (ord "\") (write_char c (unicode_escape_decode s2))
      end
  end.

End Decode.

(** [b.decode('ascii')] and [s.encode('ascii')], errors='strict'. *)
Definition ascii_decode (b : bytes) : Exc str :=
  if forallb (fun c => c <? 128) b then Ok b else Raise UnicodeDecodeError.

Definition ascii_encode (s : str) : Exc bytes :=
  if forallb (fun c => c <? 128) s then Ok s else Raise UnicodeEncodeError.

(** A UTF-8 continuation byte, 10xxxxxx. *)
Definition is_cont (b : Z) : bool := (128 <=? b) && (b <? 192).

Definition cont_bits (b : Z) : Z := Z.land b 63.

(** [b.decode('utf8')], errors='strict': shortest forms only, no
    surrogates, nothing above U+10FFFF. *)
Fixpoint utf8_decode (s : bytes) : Exc str :=
  match s with
  | [] => Ok []
  | b0 :: s1 =>
    if b0 <? 128 then write_char b0 (utf8_decode s1)
    else if b0 <? 194 then Raise UnicodeDecodeError   (* invalid start byte *)
    else if b0 <? 224 then
      match s1 with
      | b1 :: s2 =>
        if is_cont b1 then
          write_char (Z.lor (Z.shiftl (Z.land b0 31) 6) (cont_bits b1))
                     (utf8_decode s2)
        else Raise UnicodeDecodeError
      | _ => Raise UnicodeDecodeError
      end
    else if b0 <? 240 then
      match s1 with
      | b1 :: b2 :: s3 =>
        if is_cont b1 && is_cont b2
           && (negb (b0 =? 224) || (160 <=? b1))     (* overlong *)
           && (negb (b0 =? 237) || (b1 <? 160))      (* surrogate *)
        then
          write_char (Z.lor (Z.shiftl (Z.land b0 15) 12)
                        (Z.lor (Z.shiftl (cont_bits b1) 6) (cont_bits b2)))
                     (utf8_decode s3)
        else Raise UnicodeDecodeError
      | _ => Raise UnicodeDecodeError
      end
    else if b0 <? 245 then
      match s1 with
      | b1 :: b2 :: b3 :: s4 =>
        if is_cont b1 && is_cont b2 && is_cont b3
           && (negb (b0 =? 240) || (144 <=? b1))     (* overlong *)
           && (negb (b0 =? 244) || (b1 <? 144))      (* above U+10FFFF *)
        then
          write_char (Z.lor (Z.shiftl (Z.land b0 7) 18)
                        (Z.lor (Z.shiftl (cont_bits b1) 12)
                           (Z.lor (Z.shiftl (cont_bits b2) 6) (cont_bits b3))))
                     (utf8_decode s4)
        else Raise UnicodeDecodeError
      | _ => Raise UnicodeDecodeError
      end
    else Raise UnicodeDecodeError
  end.

(** Universal newlines, the reading mode of a [TextIOWrapper] made with
    the default [newline=None]: "\r\n" and a lone "\r" are both turned
    into "\n" before the text reaches the caller. *)
Fixpoint universal_newlines (s : str) : str :=
  match s with
  | [] => []
  | c :: s1 =>
    if c =? 13 then
      match s1 with
      | d :: s2 => if d =? 10 then 10 :: universal_newlines s2
                   else 10 :: universal_newlines s1
      | [] => [10]
      end
    else c :: universal_newlines s1
  end.

End Codec.

(** ** Iterators *)

(** What a Python iterator over finite input does when it is drained:
    it yields values one at a time, then stops or raises. *)
Inductive Gen (A : Type) : Type :=
| GStop
| GRaise (e : exn)
| GYield (a : A) (g : Gen A).
Arguments GStop {A}.
Arguments GRaise {A} e.
Arguments GYield {A} a g.

(** [for x in g: yield f(x)] *)
Fixpoint gen_map {A B} (f : A -> Exc B) (g : Gen A) : Gen B :=
  match g with
  | GStop => GStop
  | GRaise e => GRaise e
  | GYield a g' =>
      match f a with
      | Ok b => GYield b (gen_map f g')
      | Raise e => GRaise e
      end
  end.

(** The iterator that yields the elements of [l] and stops. *)
Fixpoint gen_of_list {A} (l : list A) : Gen A :=
  match l with
  | [] => GStop
  | a :: l' => GYield a (gen_of_list l')
  end.

(** The iterator that yields the elements of [l] and goes on as [g]. *)
Fixpoint gen_app {A} (l : list A) (g : Gen A) : Gen A :=
  match l with
  | [] => g
  | a :: l' => GYield a (gen_app l' g)
  end.

(** ** The tarfile module *)

Module tarfile.

Definition REGTYPE : Z := ord "0".
Definition AREGTYPE : Z := 0.
Definition LNKTYPE : Z := ord "1".
Definition SYMTYPE : Z := ord "2".
Definition CHRTYPE : Z := ord "3".
Definition BLKTYPE : Z := ord "4".
Definition DIRTYPE : Z := ord "5".
Definition FIFOTYPE : Z := ord "6".
Definition CONTTYPE : Z := ord "7".
Definition GNUTYPE_SPARSE : Z := ord "S".

Definition REGULAR_TYPES : list Z := [REGTYPE; AREGTYPE; CONTTYPE; GNUTYPE_SPARSE].

(** A member of an archive: its name, its type flag and, for a regular
    file, the bytes that [extractfile(member).read()] returns. *)
Record TarInfo : Type := {
  name : str;
  type : Z;
  data : bytes
}.

Definition isreg (m : TarInfo) : bool :=
  existsb (Z.eqb (type m)) REGULAR_TYPES.
Definition isfile (m : TarInfo) : bool := isreg m.
Definition issym (m : TarInfo) : bool := type m =? SYMTYPE.

(** An open archive: its members, in the order of the stream. *)
Definition TarFile : Type := list TarInfo.

Definition getnames (t : TarFile) : list str := map name t.

(** [name.rstrip('/')]: the name without the slashes at its end. *)
Fixpoint rstrip_slash (n : str) : str :=
  match n with
  | [] => []
  | c :: n' =>
      match rstrip_slash n' with
      | [] => if c =? ord "/" then [] else [c]
      | r => c :: r
      end
  end.

(** [TarFile._getmember(name)]: the members are searched from the last
    one back for one whose name is [name]. *)
Definition _getmember (t : TarFile) (n : str) : option TarInfo :=
  find (fun m => bool_decide (name m = n)) (rev t).

(** [TarFile.getmember(name)]: the last member named [name.rstrip('/')],
    [KeyError] when there is none. *)
Definition getmember (t : TarFile) (n : str) : Exc TarInfo :=
  match _getmember t (rstrip_slash n) with
  | Some m => Ok m
  | None => Raise KeyError
  end.

(** [tarFile.extractfile(member).read()], for a member that [isfile]. *)
Definition extractfile_read (m : TarInfo) : bytes := data m.

End tarfile.

(** ** The world: which archive readers were opened and closed *)

Inductive event : Type :=
| TarOpen (fileobj : bytes)
| TarClose.

(** The events of a run, the latest first. *)
Definition World : Type := list event.

(** The readers that are open after the events of [w]. *)
Fixpoint open_readers (w : World) : nat :=
  match w with
  | [] => 0
  | TarOpen _ :: w' => S (open_readers w')
  | TarClose :: w' => Nat.pred (open_readers w')
  end.

Definition M (A : Type) : Type := World -> Exc A * World.

Definition ret {A} (a : A) : M A := fun w => (Ok a, w).

Definition bind {A B} (m : M A) (k : A -> M B) : M B :=
  fun w =>
    match m w with
    | (Ok a, w') => k a w'
    | (Raise e, w') => (Raise e, w')
    end.

Definition lift {A} (m : Exc A) : M A := fun w => (m, w).

Notation "x <- m ;; k" := (exc_bind m (fun x => k))
  (at level 100, m at next level, right associativity).
Notation "x <~ m ;; k" := (bind m (fun x => k))
  (at level 100, m at next level, right associativity).

(** ** The result of a decode *)

(** A metadata value: one string, or the values of a row in order. *)
Inductive MetaValue : Type :=
| Scalar (v : str)
| Sequence (vs : list str).

(** The values stored in the [parsed] dict. *)
Inductive Field : Type :=
| Content (c : str)
| Metadata (m : gmap (list Z) MetaValue)
| Attachments (a : gmap (list Z) (list Z)).

(** [l.remove(x)]: the first occurrence goes. *)
Fixpoint list_remove (x : str) (l : list str) : list str :=
  match l with
  | [] => []
  | y :: l' => if bool_decide (y = x) then l' else y :: list_remove x l'
  end.

(** ** unpack.py *)

Section Unpack.

(** [unicodedata]'s name lookup, used by the unicode-escape decoder. *)
Variable getcode : bytes -> option Z.

(** The members of a stream that tarfile reads to its end: those that
    [tarfile.open(fileobj=BytesIO(raw))] followed by [getnames()] load,
    [None] when one of the two raises. *)
Variable read_archive : bytes -> option tarfile.TarFile.

(** For a stream that tarfile does not read to its end: the exception,
    and whether [tarfile.open] had returned a reader when it was raised
    ([true]: it is [getnames()] that raises, while the members are
    loaded; [false]: it is [tarfile.open] itself). *)
Variable read_failure : bytes -> exn * bool.

(** The lines that iterating [_text_wrapper(f)] yields for a file [f] of
    the given content ([TextIOWrapper] with the locale's encoding). *)
Variable _text_wrapper : bytes -> Gen str.

(** [csv.reader(lines, dialect=csv.excel)]: the rows it yields. *)
Variable csv_reader : Gen str -> Gen (list str).

(** [tarfile.open(fileobj=BytesIO(raw))]: the reader, which holds what
    its first [getnames()] will give, the members or an exception. *)
Definition tarfile_open (raw : bytes) : M (Exc tarfile.TarFile) :=
  fun w =>
    match read_archive raw with
    | Some t => (Ok (Ok t), TarOpen raw :: w)
    | None =>
        let '(e, opened) := read_failure raw in
        if opened then (Ok (Raise e), TarOpen raw :: w) else (Raise e, w)
    end.

(** [tarFile.close()].  unpack.py never calls it. *)
Definition tarfile_close : M unit :=
  fun w => (Ok tt, TarClose :: w).

(** [_text_wrapper(f, encoding='utf8').read()] *)
Definition _text_wrapper_utf8_read (b : bytes) : Exc str :=
  exc_map Codec.universal_newlines (Codec.utf8_decode b).

(** [_csv_encode = lambda x: x.encode('unicode-escape').decode('ascii')] *)
Definition _csv_encode (x : str) : Exc str :=
  Codec.ascii_decode (Codec.unicode_escape_encode x).

(** [_csv_decode = lambda x: x.encode('ascii').decode('unicode-escape')] *)
Definition _csv_decode (x : str) : Exc str :=
  b <- Codec.ascii_encode x ;; Codec.unicode_escape_decode getcode b.

(** [_escape_strs], the generator inside [_wrapped_csv]. *)
Definition _escape_strs (raw_data : Gen str) : Gen str :=
  gen_map _csv_encode raw_data.

Definition _wrapped_csv (csv_data : Gen str) : Gen (list str) :=
  let csv_reader := csv_reader (_escape_strs csv_data) in
  gen_map (exc_mapM _csv_decode) csv_reader.

Definition METADATA : str := lit "__METADATA__".
Definition TEXT : str := lit "__TEXT__".

(** Lines 112-117: the body of the loop over the metadata rows. *)
Definition store_row (metadata : gmap (list Z) MetaValue)
    (metadataLine : list str) : Exc (gmap (list Z) MetaValue) :=
  if (2 <=? length metadataLine)%nat then        (* assert *)
    match metadataLine with
    | [] => Raise IndexError
    | key :: values =>
      if (2 <? length metadataLine)%nat then
        Ok (<[key := Sequence values]> metadata)      (* metadataLine[1:] *)
      else
        match values with
        | v :: _ => Ok (<[key := Scalar v]> metadata)  (* metadataLine[1] *)
        | [] => Raise IndexError
        end
    end
  else Raise AssertionError.

(** Lines 108-117: [for metadataLine in metadataReader: ...]. *)
Fixpoint metadata_loop (metadataReader : Gen (list str))
    (metadata : gmap (list Z) MetaValue) : Exc (gmap (list Z) MetaValue) :=
  match metadataReader with
  | GStop => Ok metadata
  | GRaise e => Raise e
  | GYield metadataLine rest =>
      metadata <- store_row metadata metadataLine ;;
      metadata_loop rest metadata
  end.

(** Lines 100-117: the metadata and the member names left. *)
Definition extract_metadata (tarFile : tarfile.TarFile)
    (memberNames : list str) : Exc (gmap (list Z) MetaValue * list str) :=
  let metadata : gmap (list Z) MetaValue := ∅ in
  if bool_decide (METADATA ∈ memberNames) then
    let memberNames := list_remove METADATA memberNames in
    metadataMember <- tarfile.getmember tarFile METADATA ;;
    if negb (tarfile.issym metadataMember) && tarfile.isfile metadataMember then
      let metadataFile := _text_wrapper (tarfile.extractfile_read metadataMember) in
      let metadataReader := _wrapped_csv metadataFile in
      metadata <- metadata_loop metadataReader metadata ;;
      Ok (metadata, memberNames)
    else Ok (metadata, memberNames)
  else Ok (metadata, memberNames).

(** Lines 120-129: the content and the member names left. *)
Definition extract_content (tarFile : tarfile.TarFile)
    (memberNames : list str) : Exc (str * list str) :=
  let content : str := [] in
  if bool_decide (TEXT ∈ memberNames) then
    let memberNames := list_remove TEXT memberNames in
    contentMember <- tarfile.getmember tarFile TEXT ;;
    if negb (tarfile.issym contentMember) && tarfile.isfile contentMember then
      content <- _text_wrapper_utf8_read (tarfile.extractfile_read contentMember) ;;
      Ok (content, memberNames)
    else Ok (content, memberNames)
  else Ok (content, memberNames).

(** Lines 132-136: [for attachment in memberNames: ...]. *)
Fixpoint extract_attachments (tarFile : tarfile.TarFile)
    (memberNames : list str) (attachments : gmap (list Z) (list Z))
    : Exc (gmap (list Z) (list Z)) :=
  match memberNames with
  | [] => Ok attachments
  | attachment :: rest =>
      attachmentMember <- tarfile.getmember tarFile attachment ;;
      if negb (tarfile.issym attachmentMember) && tarfile.isfile attachmentMember then
        extract_attachments tarFile rest
          (<[attachment := tarfile.extractfile_read attachmentMember]> attachments)
      else extract_attachments tarFile rest attachments
  end.

(** Lines 96-140: what [_parse] does with the archive it opened. *)
Definition parse_members (tarFile : tarfile.TarFile)
    (parsed : gmap string Field) : Exc (gmap string Field) :=
  let memberNames := tarfile.getnames tarFile in
  r <- extract_metadata tarFile memberNames ;;
  let '(metadata, memberNames) := r in
  r <- extract_content tarFile memberNames ;;
  let '(content, memberNames) := r in
  attachments <- extract_attachments tarFile memberNames ∅ ;;
  let parsed := <["content" := Content content]> parsed in
  let parsed := <["metadata" := Metadata metadata]> parsed in
  let parsed := <["attachments" := Attachments attachments]> parsed in
  Ok parsed.

(** [_parse(tarOutput)].  [tarOutput] is the pair of the status and the
    response of the server, [None] standing for a falsy [tarOutput]. *)
Definition _parse (tarOutput : option (Z * option bytes))
    : M (gmap string Field) :=
  let parsed : gmap string Field := ∅ in
  match tarOutput with
  | None => ret parsed
  | Some (_, None) => ret parsed
  | Some (_, Some []) => ret parsed
  | Some (_, Some raw) =>
      reader <~ tarfile_open raw ;;            (* line 94 *)
      tarFile <~ lift reader ;;                (* line 97: the members are loaded *)
      lift (parse_members tarFile parsed)
  end.

End Unpack.

(** The names [_parse] is left with when it reaches the attachments. *)
Definition remaining (t : tarfile.TarFile) : list str :=
  list_remove TEXT (list_remove METADATA (tarfile.getnames t)).

(** The values an iterator yields before it stops or raises. *)
Fixpoint gen_yields {A} (g : Gen A) : list A :=
  match g with
  | GStop => []
  | GRaise _ => []
  | GYield a g' => a :: gen_yields g'
  end.

(** [not tarOutput or tarOutput[1] is None or tarOutput[1] == b'']: the
    test of lines 89-92, under which [_parse] opens no archive. *)
Definition no_response (tarOutput : option (Z * option bytes)) : bool :=
  match tarOutput with
  | None => true
  | Some (_, None) => true
  | Some (_, Some []) => true
  | Some (_, Some (_ :: _)) => false
  end.

(** ** A small instance of the parameters

    Enough of a tar reader, a line iterator and a CSV reader to run the
    decoder on concrete archives. *)

Module Sample.

Definition getcode : bytes -> option Z := fun _ => None.

(** A tar reader that knows one stream. *)
Definition reads (raw0 : bytes) (t : tarfile.TarFile)
    : bytes -> option tarfile.TarFile :=
  fun raw => if bool_decide (raw = raw0) then Some t else None.

(** A stream that is cut in the middle of a member: [tarfile.open] reads
    its first header, [getnames()] then raises. *)
Definition truncated : bytes := [3].

(** What tarfile raises on the streams it does not read to the end. *)
Definition read_failure : bytes -> exn * bool :=
  fun raw => (ReadError, bool_decide (raw = truncated)).

(** Lines of a file of Latin-1 text, each with its newline. *)
Fixpoint lines_from (cur : str) (b : bytes) : Gen str :=
  match b with
  | [] => match cur with [] => GStop | _ :: _ => GYield cur GStop end
  | c :: b' =>
      if c =? 10 then GYield (cur ++ [c]) (lines_from [] b')
      else lines_from (cur ++ [c]) b'
  end.
Definition _text_wrapper (b : bytes) : Gen str := lines_from [] b.

(** A CSV reader for lines without quotes: fields are split at commas. *)
Fixpoint split_commas (cur : str) (line : str) : list str :=
  match line with
  | [] => [cur]
  | c :: line' =>
      if c =? ord "," then cur :: split_commas [] line'
      else split_commas (cur ++ [c]) line'
  end.
Definition csv_reader (lines : Gen str) : Gen (list str) :=
  gen_map (fun line => Ok (split_commas [] line)) lines.

Definition regular (n : str) (d : bytes) : tarfile.TarInfo :=
  {| tarfile.name := n; tarfile.type := tarfile.REGTYPE; tarfile.data := d |}.
Definition symlink (n : str) : tarfile.TarInfo :=
  {| tarfile.name := n; tarfile.type := tarfile.SYMTYPE; tarfile.data := [] |}.
Definition directory (n : str) : tarfile.TarInfo :=
  {| tarfile.name := n; tarfile.type := tarfile.DIRTYPE; tarfile.data := [] |}.

(** The stream that stands for the archives below. *)
Definition raw : bytes := [1].

(** An archive with metadata, text, an attachment, a directory and a link. *)
Definition archive : tarfile.TarFile :=
  [ regular METADATA (lit "title,MyDoc" ++ [10] ++ lit "Author,Alice,Bob");
    regular TEXT (lit "hello world");
    directory (lit "img");
    regular (lit "img/image.png") [137; 80; 78; 71; 0; 255];
    symlink (lit "latest") ].

(** [__TEXT__] and [__METADATA__] are symbolic links here. *)
Definition linked : tarfile.TarFile :=
  [ symlink METADATA; symlink TEXT; regular (lit "a.bin") [0; 1] ].

(** The second metadata line has a key and no value. *)
Definition short_row : tarfile.TarFile :=
  [ regular METADATA (lit "title,MyDoc" ++ [10] ++ lit "orphan") ].

(** The text has a Windows line ending: "a\r\nb". *)
Definition crlf_text : tarfile.TarFile :=
  [ regular TEXT [97; 13; 10; 98] ].

Definition parse (t : tarfile.TarFile) :=
  _parse getcode (reads raw t) read_failure _text_wrapper csv_reader.



(** Two regular files, the name of the second that of the first with a
    slash. *)
Definition slashed_pair : tarfile.TarFile :=
  [ regular (lit "x") [88; 88; 88]; regular (lit "x/") [115; 108] ].

(** A regular file, and a symbolic link of the same name with a slash. *)
Definition slashed_link : tarfile.TarFile :=
  [ regular (lit "x") [88; 88; 88]; symlink (lit "x/") ].

End Sample.

(** ** The entry points *)

Section EntryPoints.

Variable getcode : bytes -> option Z.
Variable read_archive : bytes -> option tarfile.TarFile.
Variable read_failure : bytes -> exn * bool.
Variable _text_wrapper : bytes -> Gen str.
Variable csv_reader : Gen str -> Gen (list str).

(** [tika.parse1(option, urlOrPath, serverEndpoint, responseMimeType=...,
    services=..., rawResponse=...)], of the module [tika.tika]: one
    request to the server, which gives the output handed to [_parse]. *)
Variable parse1 :
  str -> str -> str -> str -> gmap (list Z) (list Z) -> bool ->
  M (option (Z * option bytes)).

(** [tika.callServer(verb, serverEndpoint, service, data, headers,
    verbose, rawResponse=...)], of the module [tika.tika]: one request,
    which gives the status and the response. *)
Variable callServer :
  str -> str -> str -> bytes -> gmap (list Z) (list Z) -> bool -> bool ->
  M (Z * option bytes).

(** [from_file(filename, serverEndpoint)] *)
Definition from_file (filename serverEndpoint : str)
    : M (gmap string Field) :=
  tarOutput <~ parse1 (lit "unpack") filename serverEndpoint
                 (lit "application/x-tar")
                 (<[lit "meta" := lit "/meta"]>
                    (<[lit "text" := lit "/tika"]>
                       (<[lit "all" := lit "/rmeta/xml"]>
                          (<[lit "unpack" := lit "/unpack/all"]> ∅))))
                 true ;;
  _parse getcode read_archive read_failure _text_wrapper csv_reader tarOutput.

(** [from_buffer(string, serverEndpoint)] *)
Definition from_buffer (string_ : bytes) (serverEndpoint : str)
    : M (gmap string Field) :=
  r <~ callServer (lit "put") serverEndpoint (lit "/unpack/all") string_
         (<[lit "Accept" := lit "application/x-tar"]> ∅) false true ;;
  let '(status, response) := r in
  _parse getcode read_archive read_failure _text_wrapper csv_reader
    (Some (status, response)).

End EntryPoints.

(** How an iterator ends: it stops, or it raises. *)
Fixpoint gen_end {A} (g : Gen A) : option exn :=
  match g with
  | GStop => None
  | GRaise e => Some e
  | GYield _ g' => gen_end g'
  end.

(** The comma and the double quote, the two characters the excel dialect
    gives a meaning to inside a line. *)
Definition csv_special (c : Z) : bool := (c =? ord ",") || (c =? 34).

(** A metadata whose sequences all have two values or more. *)
Definition sequences_long (md : gmap (list Z) MetaValue) : Prop :=
  forall k vs, md !! k = Some (Sequence vs) -> (2 <= length vs)%nat.

(** A printable ASCII character. *)
Definition printable (c : Z) : Prop := 32 <= c < 127.

(** ** Servers for the small instance *)

Module SampleServer.

(** A server that answers every request with the same output. *)
Definition parse1 (out : option (Z * option bytes))
    : str -> str -> str -> str -> gmap (list Z) (list Z) -> bool ->
      M (option (Z * option bytes)) :=
  fun _ _ _ _ _ _ => ret out.

Definition callServer (out : Z * option bytes)
    : str -> str -> str -> bytes -> gmap (list Z) (list Z) -> bool -> bool ->
      M (Z * option bytes) :=
  fun _ _ _ _ _ _ _ => ret out.

(** An archive with two members named [__TEXT__], both regular files. *)
Definition two_texts : tarfile.TarFile :=
  [ Sample.regular TEXT (lit "first"); Sample.regular TEXT (lit "second") ].




(** A CSV reader that fails at once. *)
Definition failing_reader : Gen str -> Gen (list str) :=
  fun _ => GRaise CsvError.


(** [__TEXT__] is not valid UTF-8. *)
Definition bad_text : tarfile.TarFile :=
  [ Sample.regular TEXT [104; 105; 255] ].

End SampleServer.

(** * Properties *)

(** ** The unicode-escape codec *)

Module CodecFacts.
Import Codec.

Lemma nibble_range ch k : 0 <= Z.land (Z.shiftr ch k) 15 < 16.
Proof.
  change 15 with (Z.ones 4). rewrite Z.land_ones by lia.
  apply Z.mod_pos_bound. lia.
Qed.

Lemma hexval_hexdigits n : 0 <= n < 16 -> hexval (Py_hexdigits n) = Some n.
Proof.
  intros Hn. unfold hexval, Py_hexdigits.
  change (ord "0") with 48. change (ord "9") with 57.
  change (ord "a") with 97. change (ord "f") with 102.
  change (ord "A") with 65. change (ord "F") with 70.
  destruct (Z.ltb_spec n 10).
  - replace ((48 <=? 48 + n) && (48 + n <=? 57)) with true
      by (symmetry; apply andb_true_intro; split; apply Z.leb_le; lia).
    f_equal. lia.
  - replace ((48 <=? 97 + (n - 10)) && (97 + (n - 10) <=? 57)) with false
      by (symmetry; apply andb_false_intro2; apply Z.leb_gt; lia).
    replace ((97 <=? 97 + (n - 10)) && (97 + (n - 10) <=? 102)) with true
      by (symmetry; apply andb_true_intro; split; apply Z.leb_le; lia).
    f_equal. lia.
Qed.

Lemma hexval_hexdigit_at ch k :
  hexval (hexdigit_at ch k) = Some (Z.land (Z.shiftr ch k) 15).
Proof. apply hexval_hexdigits, nibble_range. Qed.

Lemma hexdigit_ascii n : 0 <= n < 16 -> 0 <= Py_hexdigits n < 128.
Proof.
  intros Hn. unfold Py_hexdigits.
  change (ord "0") with 48. change (ord "a") with 97.
  destruct (Z.ltb_spec n 10); lia.
Qed.

Lemma nibble_eq ch k :
  0 <= k -> Z.land (Z.shiftr ch k) 15 = (ch / 2 ^ k) mod 16.
Proof.
  intros Hk. change 15 with (Z.ones 4). rewrite Z.land_ones by lia.
  now rewrite Z.shiftr_div_pow2 by lia.
Qed.

Lemma hexescape_digit acc ch k ds :
  hexescape acc (hexdigit_at ch k :: ds)
  = hexescape (Z.shiftl acc 4 + Z.land (Z.shiftr ch k) 15) ds.
Proof. cbn [hexescape]. now rewrite hexval_hexdigit_at. Qed.

Lemma hexescape_x ch :
  0 <= ch < 256 ->
  hexescape 0 [hexdigit_at ch 4; hexdigit_at ch 0] = Some ch.
Proof.
  intros Hch. rewrite !hexescape_digit. cbn [hexescape]. f_equal.
  rewrite !nibble_eq, !Z.shiftl_mul_pow2 by lia.
  change (2 ^ 4) with 16. change (2 ^ 0) with 1.
  Z.to_euclidean_division_equations. lia.
Qed.

Lemma hexescape_u ch :
  0 <= ch < 65536 ->
  hexescape 0 [hexdigit_at ch 12; hexdigit_at ch 8;
               hexdigit_at ch 4; hexdigit_at ch 0] = Some ch.
Proof.
  intros Hch. rewrite !hexescape_digit. cbn [hexescape]. f_equal.
  rewrite !nibble_eq, !Z.shiftl_mul_pow2 by lia.
  change (2 ^ 12) with 4096. change (2 ^ 8) with 256.
  change (2 ^ 4) with 16. change (2 ^ 0) with 1.
  Z.to_euclidean_division_equations. lia.
Qed.

Lemma hexescape_U ch :
  0 <= ch < 16777216 ->
  hexescape 0 [ord "0"; ord "0"; hexdigit_at ch 20; hexdigit_at ch 16;
               hexdigit_at ch 12; hexdigit_at ch 8;
               hexdigit_at ch 4; hexdigit_at ch 0] = Some ch.
Proof.
  intros Hch.
  change (hexescape 0 (ord "0" :: ord "0" :: ?l)) with (hexescape 0 l).
  rewrite !hexescape_digit. cbn [hexescape]. f_equal.
  rewrite !nibble_eq, !Z.shiftl_mul_pow2 by lia.
  change (2 ^ 20) with 1048576. change (2 ^ 16) with 65536.
  change (2 ^ 12) with 4096. change (2 ^ 8) with 256.
  change (2 ^ 4) with 16. change (2 ^ 0) with 1.
  Z.to_euclidean_division_equations. lia.
Qed.

Section DecodeFacts.
Variable getcode : list Z -> option Z.
Let decode := unicode_escape_decode getcode.

(** A byte other than the backslash stands for itself. *)
Lemma decode_plain c t :
  c <> ord "\" -> decode (c :: t) = write_char c (decode t).
Proof.
  intros Hc. unfold decode. cbn [unicode_escape_decode].
  now apply Z.eqb_neq in Hc as ->.
Qed.

Lemma decode_escape_char ch t :
  is_code_point ch ->
  decode (escape_char ch ++ t) = write_char ch (decode t).
Proof.
  unfold is_code_point, MAX_UNICODE. intros Hch. unfold escape_char.
  destruct (Z.ltb_spec ch 256) as [H256|H256].
  - destruct (Z.leb_spec 32 ch) as [H32|H32];
      [destruct (Z.ltb_spec ch 127) as [H127|H127] |]; cbn [andb].
    + destruct (Z.eqb_spec ch (ord "\")) as [->|Hne]; cbn [negb].
      * reflexivity.
      * now apply decode_plain.
    + assert (Hx : decode ([ord "\"; ord "x"; hexdigit_at ch 4; hexdigit_at ch 0] ++ t)
                   = write_char ch (decode t)).
      { change (decode (_ ++ t)) with
          (write_hex (hexescape 0 [hexdigit_at ch 4; hexdigit_at ch 0]) (decode t)).
        rewrite hexescape_x by lia. unfold write_hex, MAX_UNICODE.
        now destruct (Z.gtb_spec ch 1114111); [lia |]. }
      destruct (Z.eqb_spec ch 9); [lia |].
      destruct (Z.eqb_spec ch 10); [lia |].
      destruct (Z.eqb_spec ch 13); [lia |]. exact Hx.
    + destruct (Z.eqb_spec ch 9) as [->|]; [reflexivity |].
      destruct (Z.eqb_spec ch 10) as [->|]; [reflexivity |].
      destruct (Z.eqb_spec ch 13) as [->|]; [reflexivity |].
      change (decode (_ ++ t)) with
        (write_hex (hexescape 0 [hexdigit_at ch 4; hexdigit_at ch 0]) (decode t)).
      rewrite hexescape_x by lia. unfold write_hex, MAX_UNICODE.
      now destruct (Z.gtb_spec ch 1114111); [lia |].
  - destruct (Z.ltb_spec ch 65536) as [H64k|H64k].
    + change (decode (_ ++ t)) with
        (write_hex (hexescape 0 [hexdigit_at ch 12; hexdigit_at ch 8;
                                 hexdigit_at ch 4; hexdigit_at ch 0]) (decode t)).
      rewrite hexescape_u by lia. unfold write_hex, MAX_UNICODE.
      now destruct (Z.gtb_spec ch 1114111); [lia |].
    + change (decode (_ ++ t)) with
        (write_hex (hexescape 0 [ord "0"; ord "0";
                                 hexdigit_at ch 20; hexdigit_at ch 16;
                                 hexdigit_at ch 12; hexdigit_at ch 8;
                                 hexdigit_at ch 4; hexdigit_at ch 0]) (decode t)).
      rewrite hexescape_U by lia. unfold write_hex, MAX_UNICODE.
      now destruct (Z.gtb_spec ch 1114111); [lia |].
Qed.

(** Decoding undoes encoding, one code point after the other. *)
Lemma decode_encode s :
  is_str s -> decode (unicode_escape_encode s) = Ok s.
Proof.
  induction 1 as [|ch s Hch _ IH]; [reflexivity |].
  cbn [unicode_escape_encode flat_map].
  rewrite decode_escape_char by assumption.
  fold (unicode_escape_encode s). now rewrite IH.
Qed.

End DecodeFacts.

(** The escaped form is pure ASCII. *)
Lemma escape_char_ascii ch :
  forallb (fun c => c <? 128) (escape_char ch) = true.
Proof.
  assert (Hd : forall k, (hexdigit_at ch k <? 128) = true).
  { intros k. apply Z.ltb_lt.
    apply (hexdigit_ascii _ (nibble_range ch k)). }
  unfold escape_char.
  repeat match goal with
         | |- context [if ?b then _ else _] => destruct b eqn:?
         end; cbn [forallb]; rewrite ?Hd; try reflexivity.
  match goal with
  | H : (32 <=? ch) && (ch <? 127) = true |- _ =>
      apply andb_prop in H as [_ H]; apply Z.ltb_lt in H
  end.
  apply andb_true_intro; split; [apply Z.ltb_lt; lia | reflexivity].
Qed.

Lemma encode_ascii s :
  forallb (fun c => c <? 128) (unicode_escape_encode s) = true.
Proof.
  induction s as [|ch s IH]; [reflexivity |].
  cbn [unicode_escape_encode flat_map]. rewrite forallb_app.
  now rewrite escape_char_ascii.
Qed.

End CodecFacts.

(** ** Archives *)

Module TarFacts.
Import tarfile.

Lemma _getmember_Some t n m :
  _getmember t n = Some m -> name m = n /\ m ∈ t.
Proof.
  unfold _getmember. intros Hf. apply find_some in Hf as [Hin Hn].
  apply bool_decide_eq_true in Hn. split; [exact Hn |].
  apply list_elem_of_In. now apply in_rev.
Qed.

Lemma _getmember_of_name t n :
  n ∈ getnames t -> exists m, _getmember t n = Some m.
Proof.
  unfold getnames, _getmember. intros Hn.
  apply list_elem_of_fmap in Hn as (m & -> & Hm).
  destruct (find _ (rev t)) as [m'|] eqn:Hf; [eauto |].
  apply find_none with (x := m) in Hf.
  - now apply bool_decide_eq_false in Hf.
  - apply in_rev. rewrite rev_involutive. now apply list_elem_of_In.
Qed.

Lemma _getmember_None t n : n ∉ getnames t -> _getmember t n = None.
Proof.
  intros Hn. destruct (_getmember t n) as [m|] eqn:Hm; [|reflexivity].
  apply _getmember_Some in Hm as [<- Hm]. destruct Hn.
  unfold getnames. now apply list_elem_of_fmap_2.
Qed.

(** The member a name denotes bears the name without its last slashes. *)
Lemma getmember_Ok t n m :
  getmember t n = Ok m -> name m = rstrip_slash n /\ m ∈ t.
Proof.
  unfold getmember. destruct (_getmember t _) as [m'|] eqn:Hf; [|discriminate].
  intros [= <-]. now apply _getmember_Some.
Qed.

(** [KeyError] is all that [getmember] raises. *)
Lemma getmember_raises t n e : getmember t n = Raise e -> e = KeyError.
Proof. unfold getmember. destruct (_getmember t _); congruence. Qed.


Lemma getmember_in_names t n m :
  rstrip_slash n = n -> getmember t n = Ok m -> n ∈ getnames t.
Proof.
  intros Hn H. apply getmember_Ok in H as [Hname Hm]. rewrite Hn in Hname.
  rewrite <- Hname. unfold getnames. now apply list_elem_of_fmap_2.
Qed.



Lemma rstrip_METADATA : rstrip_slash METADATA = METADATA.
Proof. reflexivity. Qed.

Lemma rstrip_TEXT : rstrip_slash TEXT = TEXT.
Proof. reflexivity. Qed.

(** A symbolic link is not a file, and neither is a directory. *)
Lemma issym_not_isfile m : issym m = true -> isfile m = false.
Proof.
  unfold issym, isfile, isreg. intros H. apply Z.eqb_eq in H. now rewrite H.
Qed.


Lemma isfile_not_issym m : isfile m = true -> issym m = false.
Proof.
  intros H. destruct (issym m) eqn:Hs; [|reflexivity].
  apply issym_not_isfile in Hs. congruence.
Qed.

(** The test of lines 105, 125 and 135 is the test [isfile]. *)
Lemma regular_test m : negb (issym m) && isfile m = isfile m.
Proof.
  destruct (isfile m) eqn:Hf; [|apply andb_false_r].
  now rewrite isfile_not_issym.
Qed.

End TarFacts.

Lemma list_remove_subseteq x l : list_remove x l ⊆ l.
Proof.
  induction l as [|y l IH]; [done |]. cbn [list_remove].
  destruct (bool_decide (y = x)).
  - now apply list_subseteq_cons.
  - intros z Hz. apply elem_of_cons in Hz as [->|Hz]; apply elem_of_cons;
      [now left | right; now apply IH].
Qed.

Lemma list_remove_other x y l : x <> y -> x ∈ l -> x ∈ list_remove y l.
Proof.
  intros Hne. induction l as [|z l IH]; [done |]. intros Hin.
  cbn [list_remove]. destruct (bool_decide (z = y)) eqn:Hz.
  - apply bool_decide_eq_true in Hz as ->.
    now apply elem_of_cons in Hin as [?|?].
  - apply elem_of_cons in Hin as [->|Hin]; apply elem_of_cons;
      [now left | right; now apply IH].
Qed.

Lemma list_remove_absent x l : x ∉ l -> list_remove x l = l.
Proof.
  induction l as [|y l IH]; [done |]. intros Hx. cbn [list_remove].
  rewrite bool_decide_eq_false_2 by set_solver.
  f_equal. apply IH. set_solver.
Qed.

(** ** The blocks of [_parse] *)

Section BlockFacts.
Import tarfile TarFacts.

(** [__TEXT__] leaves the working list whatever its member is. *)
Lemma extract_content_names t names c names' :
  extract_content t names = Ok (c, names') ->
  names' = list_remove TEXT names.
Proof.
  unfold extract_content. case_bool_decide as Hin.
  - destruct (getmember t TEXT) as [m|]; [|discriminate]. cbn [exc_bind].
    destruct (negb (issym m) && isfile m).
    + destruct (_text_wrapper_utf8_read _); [|discriminate]. now intros [= _ <-].
    + now intros [= _ <-].
  - intros [= _ <-]. now rewrite list_remove_absent.
Qed.

(** What the attachments loop has stored when it returns, name by name. *)
Lemma extract_attachments_lookup t names acc a :
  extract_attachments t names acc = Ok a ->
  forall n,
    a !! n =
    if decide (n ∈ names) then
      match getmember t n with
      | Ok m => if isfile m then Some (data m) else acc !! n
      | Raise _ => acc !! n
      end
    else acc !! n.
Proof.
  revert acc. induction names as [|x rest IH]; intros acc.
  - intros [= <-] n. now rewrite decide_False by apply not_elem_of_nil.
  - cbn [extract_attachments].
    destruct (getmember t x) as [m|] eqn:Hm; [|discriminate].
    cbn [exc_bind]. rewrite regular_test. unfold extractfile_read.
    destruct (isfile m) eqn:Hfile; intros Ha n; rewrite (IH _ Ha n).
    + destruct (decide (n = x)) as [->|Hne].
      * rewrite (decide_True (P := x ∈ x :: rest))
          by (apply elem_of_cons; now left).
        rewrite Hm, Hfile, lookup_insert_eq. now destruct (decide (x ∈ rest)).
      * rewrite lookup_insert_ne by done.
        destruct (decide (n ∈ rest)) as [Hr|Hr].
        -- now rewrite decide_True by (apply elem_of_cons; now right).
        -- now rewrite decide_False by (rewrite elem_of_cons; intros [?|?]; done).
    + destruct (decide (n = x)) as [->|Hne].
      * rewrite (decide_True (P := x ∈ x :: rest))
          by (apply elem_of_cons; now left).
        rewrite Hm, Hfile. now destruct (decide (x ∈ rest)).
      * destruct (decide (n ∈ rest)) as [Hr|Hr].
        -- now rewrite decide_True by (apply elem_of_cons; now right).
        -- now rewrite decide_False by (rewrite elem_of_cons; intros [?|?]; done).
Qed.



(** It does raise when a name denotes none. *)
Lemma extract_attachments_KeyError t names acc n :
  n ∈ names -> getmember t n = Raise KeyError ->
  extract_attachments t names acc = Raise KeyError.
Proof.
  intros Hn Hget. revert acc.
  induction names as [|x rest IH]; intros acc; [now apply elem_of_nil in Hn |].
  cbn [extract_attachments].
  destruct (getmember t x) as [m|e] eqn:Hm; cbn [exc_bind].
  - apply elem_of_cons in Hn as [->|Hn]; [congruence |].
    destruct (negb (issym m) && isfile m); now apply IH.
  - now rewrite (getmember_raises _ _ _ Hm).
Qed.

(** When the loop returns, every name denoted a member. *)
Lemma extract_attachments_denote t names acc a n :
  extract_attachments t names acc = Ok a -> n ∈ names ->
  exists m, getmember t n = Ok m.
Proof.
  intros Ha Hn. destruct (getmember t n) as [m|e] eqn:Hm; [now exists m |].
  pose proof (getmember_raises _ _ _ Hm) as ->.
  rewrite (extract_attachments_KeyError _ _ acc _ Hn Hm) in Ha. discriminate.
Qed.



Variable getcode : list Z -> option Z.
Variable _text_wrapper : list Z -> Gen (list Z).
Variable csv_reader : Gen (list Z) -> Gen (list (list Z)).

Local Abbreviation metadata_block :=
  (extract_metadata getcode _text_wrapper csv_reader).
Local Abbreviation members_block :=
  (parse_members getcode _text_wrapper csv_reader).

(** [__METADATA__] leaves the working list whatever its member is. *)
Lemma extract_metadata_names t names md names' :
  metadata_block t names = Ok (md, names') ->
  names' = list_remove METADATA names.
Proof.
  unfold extract_metadata. case_bool_decide as Hin.
  - destruct (getmember t METADATA) as [m|]; [|discriminate]. cbn [exc_bind].
    destruct (negb (issym m) && isfile m).
    + destruct (metadata_loop _ _); [|discriminate]. now intros [= _ <-].
    + now intros [= _ <-].
  - intros [= _ <-]. now rewrite list_remove_absent.
Qed.

(** A successful decode, block by block. *)
Lemma parse_members_Ok t parsed :
  members_block t ∅ = Ok parsed ->
  exists md c a,
    metadata_block t (getnames t) = Ok (md, list_remove METADATA (getnames t)) /\
    extract_content t (list_remove METADATA (getnames t)) = Ok (c, remaining t) /\
    extract_attachments t (remaining t) ∅ = Ok a /\
    parsed = <["attachments" := Attachments a]>
               (<["metadata" := Metadata md]> (<["content" := Content c]> ∅)).
Proof.
  unfold parse_members.
  destruct (metadata_block t (getnames t)) as [[md names1]|] eqn:Hmd;
    [|discriminate].
  pose proof (extract_metadata_names _ _ _ _ Hmd) as ->. cbn [exc_bind].
  destruct (extract_content t _) as [[c names2]|] eqn:Hc; [|discriminate].
  pose proof (extract_content_names _ _ _ _ Hc) as ->. cbn [exc_bind].
  fold (remaining t).
  destruct (extract_attachments t (remaining t) ∅) as [a|] eqn:Ha;
    [|discriminate].
  cbn [exc_bind]. intros [= <-]. now exists md, c, a.
Qed.

End BlockFacts.

(** ** The metadata rows *)

Section RowFacts.

Implicit Types (md : gmap (list Z) MetaValue) (row : list (list Z)).

Lemma store_row_short md row :
  (length row < 2)%nat -> store_row md row = Raise AssertionError.
Proof.
  intros Hlen. unfold store_row.
  now apply Nat.leb_gt in Hlen as ->.
Qed.

(** The assertion is the only way a row can fail. *)
Lemma store_row_raises md row e :
  store_row md row = Raise e -> e = AssertionError.
Proof.
  unfold store_row. destruct row as [|k [|v1 [|v2 vs]]]; cbn; congruence.
Qed.

(** A row changes the entry of its own key only. *)
Lemma store_row_other md row md' k :
  store_row md row = Ok md' -> head row <> Some k -> md' !! k = md !! k.
Proof.
  unfold store_row. destruct row as [|k' [|v1 [|v2 vs]]]; cbn; try discriminate.
  - intros [= <-] Hk. apply lookup_insert_ne. congruence.
  - intros [= <-] Hk. apply lookup_insert_ne. congruence.
Qed.

Lemma metadata_loop_other g md md' k :
  metadata_loop g md = Ok md' ->
  (forall row, row ∈ gen_yields g -> head row <> Some k) ->
  md' !! k = md !! k.
Proof.
  revert md. induction g as [| e | row g IH]; intros md; cbn.
  - now intros [= <-].
  - discriminate.
  - destruct (store_row md row) as [md1|] eqn:Hrow; [|discriminate].
    cbn [exc_bind]. intros Hloop Hk.
    rewrite (IH _ Hloop) by (intros r Hr; apply Hk; set_solver).
    apply (store_row_other _ _ _ _ Hrow). apply Hk. set_solver.
Qed.

(** A row with fewer than two fields stops the loop, wherever it is. *)
Lemma metadata_loop_short before row after md :
  (length row < 2)%nat ->
  metadata_loop (gen_app before (GYield row after)) md = Raise AssertionError.
Proof.
  intros Hlen. revert md.
  induction before as [|r before IH]; intros md; cbn [gen_app metadata_loop].
  - now rewrite store_row_short.
  - destruct (store_row md r) as [md1|e] eqn:Hr; cbn [exc_bind].
    + apply IH.
    + now rewrite (store_row_raises _ _ _ Hr).
Qed.

(** The rows before a row only change the metadata it starts from. *)
Lemma metadata_loop_app before g md md' :
  metadata_loop (gen_app before g) md = Ok md' ->
  exists md1, metadata_loop g md1 = Ok md'.
Proof.
  revert md. induction before as [|r before IH]; intros md; cbn [gen_app].
  - eauto.
  - cbn [metadata_loop]. destruct (store_row md r) as [md1|]; [|discriminate].
    cbn [exc_bind]. apply IH.
Qed.

(** Lines 114-117 on a row that passes the assertion. *)
Lemma metadata_loop_row key v1 vs rest md :
  metadata_loop (GYield (key :: v1 :: vs) rest) md
  = metadata_loop rest
      (<[key := match vs with
                | [] => Scalar v1
                | _ :: _ => Sequence (v1 :: vs)
                end]> md).
Proof. now destruct vs. Qed.

End RowFacts.

(** ** [_parse] *)

Section ParseFacts.
Import tarfile TarFacts.

(** What [__TEXT__] yields when its member is not a file. *)
Lemma extract_content_not_file t names m :
  getmember t TEXT = Ok m -> isfile m = false ->
  extract_content t names = Ok ([], list_remove TEXT names).
Proof.
  intros Hm Hfile. unfold extract_content. case_bool_decide as Hin.
  - rewrite Hm. cbn [exc_bind]. now rewrite regular_test, Hfile.
  - now rewrite list_remove_absent.
Qed.

(** What a regular [__TEXT__] yields. *)
Lemma extract_content_file t names m :
  TEXT ∈ names -> getmember t TEXT = Ok m -> isfile m = true ->
  extract_content t names
  = (c <- _text_wrapper_utf8_read (extractfile_read m) ;;
     Ok (c, list_remove TEXT names)).
Proof.
  intros Hin Hm Hfile. unfold extract_content.
  rewrite bool_decide_eq_true_2 by done.
  rewrite Hm. cbn [exc_bind]. now rewrite regular_test, Hfile.
Qed.

(** A [__TEXT__] that is not valid UTF-8 is a decode error. *)
Lemma extract_content_invalid_utf8 t names m e :
  TEXT ∈ names -> getmember t TEXT = Ok m -> isfile m = true ->
  Codec.utf8_decode (data m) = Raise e ->
  extract_content t names = Raise e.
Proof.
  intros Hin Hm Hfile Hdec. rewrite (extract_content_file _ _ _ Hin Hm Hfile).
  unfold _text_wrapper_utf8_read, extractfile_read, exc_map.
  now rewrite Hdec.
Qed.

Variable getcode : list Z -> option Z.
Variable read_archive : list Z -> option TarFile.
Variable read_failure : list Z -> exn * bool.
Variable _text_wrapper : list Z -> Gen (list Z).
Variable csv_reader : Gen (list Z) -> Gen (list (list Z)).

Local Abbreviation parse := (_parse getcode read_archive read_failure _text_wrapper csv_reader).
Local Abbreviation metadata_block :=
  (extract_metadata getcode _text_wrapper csv_reader).
Local Abbreviation members_block :=
  (parse_members getcode _text_wrapper csv_reader).
Local Abbreviation rows_of :=
  (fun m : TarInfo =>
     _wrapped_csv getcode csv_reader (_text_wrapper (extractfile_read m))).

Lemma parse_no_response tarOutput w :
  no_response tarOutput = true -> parse tarOutput w = (Ok ∅, w).
Proof.
  destruct tarOutput as [[st [[|b raw]|]]|]; try discriminate; reflexivity.
Qed.

(** With a response to read, [_parse] opens it and decodes its members. *)
Lemma parse_opened st raw t w :
  raw <> [] -> read_archive raw = Some t ->
  parse (Some (st, Some raw)) w = (members_block t ∅, TarOpen raw :: w).
Proof.
  intros Hraw Ht. destruct raw as [|b raw]; [done |].
  unfold _parse, bind, tarfile_open, lift. now rewrite Ht.
Qed.

(** With a response that tarfile does not read to its end, [_parse]
    raises: at [getnames()] with the reader open, or at [tarfile.open]. *)
Lemma parse_unreadable st raw w e opened :
  raw <> [] -> read_archive raw = None -> read_failure raw = (e, opened) ->
  parse (Some (st, Some raw)) w
  = (Raise e, if opened then TarOpen raw :: w else w).
Proof.
  intros Hraw Ht He. destruct raw as [|b raw]; [done |].
  unfold _parse, bind, tarfile_open, lift. rewrite Ht, He.
  now destruct opened.
Qed.

(** A result comes from an archive that was read to its end. *)
Lemma parse_Ok_opened st raw w parsed w' :
  raw <> [] ->
  parse (Some (st, Some raw)) w = (Ok parsed, w') ->
  exists t, read_archive raw = Some t /\ members_block t ∅ = Ok parsed /\
            w' = TarOpen raw :: w.
Proof.
  intros Hraw Hparse. destruct (read_archive raw) as [t|] eqn:Ht.
  - rewrite (parse_opened _ _ _ _ Hraw Ht) in Hparse.
    injection Hparse as Hmembers <-. now exists t.
  - destruct (read_failure raw) as [e opened] eqn:He.
    now rewrite (parse_unreadable _ _ _ _ _ Hraw Ht He) in Hparse.
Qed.

(** What [__METADATA__] yields when its member is not a file. *)
Lemma extract_metadata_not_file t names m :
  getmember t METADATA = Ok m -> isfile m = false ->
  metadata_block t names = Ok (∅, list_remove METADATA names).
Proof.
  intros Hm Hfile. unfold extract_metadata. case_bool_decide as Hin.
  - rewrite Hm. cbn [exc_bind]. now rewrite regular_test, Hfile.
  - now rewrite list_remove_absent.
Qed.

(** What a regular [__METADATA__] yields: the rows, stored in order. *)
Lemma extract_metadata_file t m :
  getmember t METADATA = Ok m -> isfile m = true ->
  metadata_block t (getnames t)
  = (md <- metadata_loop (rows_of m) ∅ ;;
     Ok (md, list_remove METADATA (getnames t))).
Proof.
  intros Hm Hfile. unfold extract_metadata.
  rewrite bool_decide_eq_true_2
    by apply (getmember_in_names _ _ m rstrip_METADATA Hm).
  rewrite Hm. cbn [exc_bind]. now rewrite regular_test, Hfile.
Qed.

Lemma parse_invalid_utf8 st raw t w m e :
  raw <> [] -> read_archive raw = Some t ->
  getmember t TEXT = Ok m -> isfile m = true ->
  Codec.utf8_decode (data m) = Raise e ->
  exists e', fst (parse (Some (st, Some raw)) w) = Raise e'.
Proof.
  intros Hraw Ht Hm Hfile Hdec. rewrite (parse_opened _ _ _ _ Hraw Ht).
  cbn [fst]. unfold parse_members.
  destruct (metadata_block t (getnames t)) as [[md names1]|e1] eqn:Hmd;
    [|now exists e1].
  cbn [exc_bind]. exists e.
  rewrite (extract_content_invalid_utf8 t names1 m e); try done.
  rewrite (extract_metadata_names _ _ _ _ _ _ _ Hmd).
  apply list_remove_other; [discriminate |].
  now apply (getmember_in_names _ _ m rstrip_TEXT).
Qed.

End ParseFacts.

(** * The contract of the decoder *)

Section Contract.
Import tarfile TarFacts.

Variable getcode : list Z -> option Z.
Variable read_archive : list Z -> option TarFile.
Variable read_failure : list Z -> exn * bool.
Variable _text_wrapper : list Z -> Gen (list Z).
Variable csv_reader : Gen (list Z) -> Gen (list (list Z)).

Local Abbreviation parse := (_parse getcode read_archive read_failure _text_wrapper csv_reader).
Local Abbreviation metadata_block :=
  (extract_metadata getcode _text_wrapper csv_reader).
Local Abbreviation members_block :=
  (parse_members getcode _text_wrapper csv_reader).
Local Abbreviation rows_of :=
  (fun m : TarInfo =>
     _wrapped_csv getcode csv_reader (_text_wrapper (extractfile_read m))).

(** C1, as the code has it.  When [tarOutput] is falsy, or its response is
    [None] or zero-length, [_parse] returns the empty dict, which has no
    field at all, and opens no archive: the world is left as it was.  In
    every other case a result that [_parse] returns has exactly the three
    fields [content], [metadata] and [attachments]. *)
Theorem parse_fields (tarOutput : option (Z * option (list Z))) (w : World) :
  (no_response tarOutput = true -> parse tarOutput w = (Ok ∅, w)) /\
  (forall parsed w',
     no_response tarOutput = false ->
     parse tarOutput w = (Ok parsed, w') ->
     dom parsed = {[ "content"; "metadata"; "attachments" ]} /\
     exists c md a,
       parsed !! "content" = Some (Content c) /\
       parsed !! "metadata" = Some (Metadata md) /\
       parsed !! "attachments" = Some (Attachments a)).
Proof.
  split; [apply parse_no_response |].
  intros parsed w' Hresp Hparse.
  destruct tarOutput as [[st [[|b raw]|]]|]; try discriminate Hresp.
  apply parse_Ok_opened in Hparse as (t & _ & Hmembers & _); [|done].
  apply parse_members_Ok in Hmembers as (md & c & a & _ & _ & _ & ->).
  split.
  - rewrite !dom_insert_L, dom_empty_L. set_solver.
  - exists c, md, a. now rewrite !lookup_insert.
Qed.

(** C2.  Unescaping the escaped form of a string gives the string back:
    [_csv_decode(_csv_encode(s)) == s] for every [str] [s], with its
    nulls, backslashes and control characters. *)
Theorem csv_decode_encode (s : list Z) :
  is_str s ->
  (x <- _csv_encode s ;; _csv_decode getcode x) = Ok s.
Proof.
  intros Hs. unfold _csv_encode, _csv_decode, Codec.ascii_decode, Codec.ascii_encode.
  rewrite CodecFacts.encode_ascii. cbn [exc_bind].
  rewrite CodecFacts.encode_ascii. cbn [exc_bind].
  now apply CodecFacts.decode_encode.
Qed.

(** C3.  A row [key, value1] is stored as the scalar [value1] under [key];
    a row [key, value1, value2, ...] is stored as the sequence of its
    values, in the order of the row.  When the decode returns, the entry
    is found in its metadata, unless a later row had the same key. *)
Theorem metadata_row_stored (st : Z) (raw : list Z) (w : World) (t : TarFile)
    (m : TarInfo) (before : list (list (list Z))) (key v1 : list Z)
    (vs : list (list Z)) (rest : Gen (list (list Z))) :
  let stored := match vs with
                | [] => Scalar v1
                | _ :: _ => Sequence (v1 :: vs)
                end in
  (forall md0,
     metadata_loop (GYield (key :: v1 :: vs) rest) md0
     = metadata_loop rest (<[key := stored]> md0)) /\
  (raw <> [] ->
   read_archive raw = Some t ->
   getmember t METADATA = Ok m ->
   isfile m = true ->
   rows_of m = gen_app before (GYield (key :: v1 :: vs) rest) ->
   (forall row, row ∈ gen_yields rest -> head row <> Some key) ->
   forall parsed w',
     parse (Some (st, Some raw)) w = (Ok parsed, w') ->
     exists md, parsed !! "metadata" = Some (Metadata md) /\
                md !! key = Some stored).
Proof.
  intros stored. split; [intros md0; apply metadata_loop_row |].
  intros Hraw Ht Hm Hfile Hrows Hlater parsed w' Hparse.
  rewrite (parse_opened _ _ _ _ _ _ _ _ _ Hraw Ht) in Hparse.
  injection Hparse as Hmembers _.
  apply parse_members_Ok in Hmembers as (md & c & a & Hmd & _ & _ & ->).
  exists md. split; [now rewrite lookup_insert_ne, lookup_insert |].
  rewrite (extract_metadata_file _ _ _ _ _ Hm Hfile), Hrows in Hmd.
  destruct (metadata_loop _ ∅) as [md'|] eqn:Hloop; [|discriminate].
  injection Hmd as ->.
  apply metadata_loop_app in Hloop as (md1 & Hloop).
  rewrite metadata_loop_row in Hloop.
  rewrite (metadata_loop_other _ _ _ key Hloop Hlater).
  apply lookup_insert_eq.
Qed.

(** C4.  When the reader of a regular [__METADATA__] yields a row with
    fewer than two fields, [_parse] raises [AssertionError] and returns no
    result. *)
Theorem short_row_raises (st : Z) (raw : list Z) (w : World) (t : TarFile)
    (m : TarInfo) (before : list (list (list Z))) (row : list (list Z))
    (after : Gen (list (list Z))) :
  raw <> [] ->
  read_archive raw = Some t ->
  getmember t METADATA = Ok m ->
  isfile m = true ->
  rows_of m = gen_app before (GYield row after) ->
  (length row < 2)%nat ->
  fst (parse (Some (st, Some raw)) w) = Raise AssertionError.
Proof.
  intros Hraw Ht Hm Hfile Hrows Hlen.
  rewrite (parse_opened _ _ _ _ _ _ _ _ _ Hraw Ht). cbn [fst].
  unfold parse_members.
  rewrite (extract_metadata_file _ _ _ _ _ Hm Hfile), Hrows.
  now rewrite metadata_loop_short.
Qed.

(** C5.  A symbolic link is never read.  A name denotes the member that
    [tarFile.getmember] returns for it.  In every result of a decode, if
    [__TEXT__] denotes a symbolic link the content is the empty text, if
    [__METADATA__] denotes one the metadata is the empty mapping, no name
    that denotes one is a key of the attachments, and whatever the
    attachments hold under a name was read from a regular file that is
    no symbolic link. *)
Theorem symlink_not_read (st : Z) (raw : list Z) (w w' : World) (t : TarFile)
    (parsed : gmap string Field) :
  raw <> [] ->
  read_archive raw = Some t ->
  parse (Some (st, Some raw)) w = (Ok parsed, w') ->
  (forall m, getmember t TEXT = Ok m -> issym m = true ->
             parsed !! "content" = Some (Content [])) /\
  (forall m, getmember t METADATA = Ok m -> issym m = true ->
             parsed !! "metadata" = Some (Metadata ∅)) /\
  (forall n m, getmember t n = Ok m -> issym m = true ->
               exists a, parsed !! "attachments" = Some (Attachments a) /\
                         a !! n = None) /\
  (forall a n v, parsed !! "attachments" = Some (Attachments a) ->
                 a !! n = Some v ->
                 exists m, getmember t n = Ok m /\ issym m = false /\
                           isfile m = true /\ v = extractfile_read m).
Proof.
  intros Hraw Ht Hparse.
  rewrite (parse_opened _ _ _ _ _ _ _ _ _ Hraw Ht) in Hparse.
  injection Hparse as Hmembers _.
  apply parse_members_Ok in Hmembers as (md & c & a & Hmd & Hc & Ha & ->).
  split; [|split; [|split]].
  - intros m Hm Hsym. apply issym_not_isfile in Hsym.
    rewrite (extract_content_not_file _ _ _ Hm Hsym) in Hc.
    injection Hc as <-. now rewrite !lookup_insert.
  - intros m Hm Hsym. apply issym_not_isfile in Hsym.
    rewrite (extract_metadata_not_file _ _ _ _ _ _ Hm Hsym) in Hmd.
    injection Hmd as <-. now rewrite !lookup_insert.
  - intros n m Hm Hsym. apply issym_not_isfile in Hsym.
    exists a. split; [now rewrite !lookup_insert |].
    rewrite (extract_attachments_lookup _ _ _ _ Ha), Hm, Hsym, lookup_empty.
    now destruct (decide _).
  - intros a' n v Hatt Hn. rewrite lookup_insert in Hatt. cbn in Hatt.
    injection Hatt as <-.
    rewrite (extract_attachments_lookup _ _ _ _ Ha), lookup_empty in Hn.
    destruct (decide _); [|discriminate].
    destruct (getmember t n) as [m|]; [|discriminate].
    destruct (isfile m) eqn:Hfile; [|discriminate].
    injection Hn as <-. exists m. now rewrite (isfile_not_issym _ Hfile).
Qed.


(** C8, as the code has it.  [_parse] opens at most one archive reader and
    has no step that closes one: the events of a call are the events
    before it, with at most the opening of one reader in front and never a
    [close].  When the archive is read the reader was opened and is not
    closed by the call, whether the call returns or raises.  When the
    archive is not read the call raises the exception of the failure:
    with the reader opened and not closed when the failure is that of
    [getnames()], after [tarfile.open] returned, and with no reader opened
    when it is that of [tarfile.open] itself.  When the response is absent
    or empty no reader is opened. *)
Theorem reader_never_closed (tarOutput : option (Z * option (list Z)))
    (w : World) :
  (exists k, snd (parse tarOutput w) = k ++ w /\
             (length k <= 1)%nat /\ TarClose ∉ k) /\
  (no_response tarOutput = true -> snd (parse tarOutput w) = w) /\
  (forall st raw,
     tarOutput = Some (st, Some raw) -> raw <> [] ->
     (forall t, read_archive raw = Some t ->
        snd (parse tarOutput w) = TarOpen raw :: w /\
        open_readers (snd (parse tarOutput w)) = S (open_readers w)) /\
     (forall e, read_archive raw = None -> read_failure raw = (e, true) ->
        parse tarOutput w = (Raise e, TarOpen raw :: w) /\
        open_readers (snd (parse tarOutput w)) = S (open_readers w)) /\
     (forall e, read_archive raw = None -> read_failure raw = (e, false) ->
        parse tarOutput w = (Raise e, w))).
Proof.
  assert (Hcases : forall st raw,
             tarOutput = Some (st, Some raw) -> raw <> [] ->
             (forall t, read_archive raw = Some t ->
                snd (parse tarOutput w) = TarOpen raw :: w) /\
             (forall e opened,
                read_archive raw = None -> read_failure raw = (e, opened) ->
                parse tarOutput w
                = (Raise e, if opened then TarOpen raw :: w else w))).
  { intros st raw -> Hraw. split.
    - intros t Ht. now rewrite (parse_opened _ _ _ _ _ _ _ _ _ Hraw Ht).
    - intros e opened Hnone Hfail. now apply parse_unreadable. }
  assert (Hopen : forall raw, TarClose ∉ [TarOpen raw]).
  { intros raw Hin. apply elem_of_cons in Hin as [Heq|Hin]; [discriminate |].
    now apply not_elem_of_nil in Hin. }
  split; [|split].
  - destruct (no_response tarOutput) eqn:Hresp.
    + exists []. rewrite parse_no_response by done.
      repeat split; [cbn; lia | apply not_elem_of_nil].
    + destruct tarOutput as [[st [raw|]]|]; try discriminate.
      assert (Hraw : raw <> []) by (intros ->; discriminate).
      destruct (Hcases st raw eq_refl Hraw) as [Hread Hfail].
      destruct (read_archive raw) as [t|] eqn:Ht.
      * exists [TarOpen raw]. rewrite (Hread t eq_refl).
        repeat split; [cbn; lia | apply Hopen].
      * destruct (read_failure raw) as [e opened] eqn:Hf.
        rewrite (Hfail e opened eq_refl eq_refl). destruct opened.
        -- exists [TarOpen raw]. repeat split; [cbn; lia | apply Hopen].
        -- exists []. repeat split; [cbn; lia | apply not_elem_of_nil].
  - intros Hresp. now rewrite parse_no_response.
  - intros st raw Hout Hraw. destruct (Hcases st raw Hout Hraw) as [Hread Hfail].
    split; [|split].
    + intros t Ht. now rewrite (Hread t Ht).
    + intros e Hnone Hf. now rewrite (Hfail e true Hnone Hf).
    + intros e Hnone Hf. now rewrite (Hfail e false Hnone Hf).
Qed.

(** C9.  The status plays no part in the decode: two outputs of the server
    with the same response are decoded alike, to the same result or the
    same exception, whatever their statuses. *)
Theorem status_ignored (s1 s2 : Z) (response : option (list Z)) (w : World) :
  parse (Some (s1, response)) w = parse (Some (s2, response)) w.
Proof.
  destruct response as [raw|]; [|reflexivity].
  destruct raw as [|b raw]; [reflexivity |].
  unfold _parse, bind, tarfile_open.
  destruct (read_archive (b :: raw)); [reflexivity |].
  now destruct (read_failure (b :: raw)) as [e []].
Qed.


End Contract.

(** ** The contract on concrete archives *)

(** C7 on a text with a carriage return.  The text of [__TEXT__] goes
    through a [TextIOWrapper] in universal newlines mode: the four bytes
    of "a\r\nb" are valid UTF-8 and decode to the four characters they
    are, and the content of the decode is the three characters "a\nb". *)
Theorem crlf_text_translated :
  Codec.utf8_decode [97; 13; 10; 98] = Ok [97; 13; 10; 98] /\
  exists parsed,
    fst (Sample.parse Sample.crlf_text (Some (200, Some Sample.raw)) [])
    = Ok parsed /\
    parsed !! "content" = Some (Content [97; 10; 98]).
Proof.
  split; [reflexivity |].
  eexists. split; [reflexivity |]. vm_compute. reflexivity.
Qed.

(** Against C1 as it is worded: on an empty response the result has no
    [content] field, let alone the three default fields. *)
Lemma empty_response_no_fields :
  ~ (exists parsed,
       fst (Sample.parse Sample.archive (Some (200, Some [])) []) = Ok parsed /\
       parsed !! "content" = Some (Content []) /\
       parsed !! "metadata" = Some (Metadata ∅) /\
       parsed !! "attachments" = Some (Attachments ∅)).
Proof.
  intros (parsed & Hparse & Hcontent & _).
  change (Ok (∅ : gmap string Field) = Ok parsed) in Hparse.
  injection Hparse as <-. rewrite lookup_empty in Hcontent. discriminate.
Qed.

(** Against C8 as it is worded: the events of a decode that returns, and
    those of a decode that raises, have the opening of a reader and no
    [close] after it. *)
Lemma reader_left_open :
  open_readers
    (snd (Sample.parse Sample.archive (Some (200, Some Sample.raw)) []))
  <> open_readers [] /\
  fst (Sample.parse Sample.short_row (Some (200, Some Sample.raw)) [])
  = Raise AssertionError /\
  open_readers
    (snd (Sample.parse Sample.short_row (Some (200, Some Sample.raw)) []))
  <> open_readers [].
Proof.
  split; [|split]; vm_compute; congruence.
Qed.


Lemma parse_fields_witness :
  Sample.parse Sample.archive (Some (200, Some [])) [] = (Ok ∅, []) /\
  exists parsed,
    fst (Sample.parse Sample.archive (Some (200, Some Sample.raw)) [])
    = Ok parsed /\
    dom parsed = {[ "content"; "metadata"; "attachments" ]}.
Proof.
  split.
  - apply (parse_fields Sample.getcode (Sample.reads Sample.raw Sample.archive) Sample.read_failure
             Sample._text_wrapper Sample.csv_reader (Some (200, Some [])) []).
    reflexivity.
  - eexists. split; [reflexivity |].
    eapply (parse_fields Sample.getcode (Sample.reads Sample.raw Sample.archive) Sample.read_failure
              Sample._text_wrapper Sample.csv_reader
              (Some (200, Some Sample.raw)) []); reflexivity.
Defined.

Lemma csv_decode_encode_witness :
  is_str [0; 92; 10; 955; 128512] /\
  (x <- _csv_encode [0; 92; 10; 955; 128512] ;; _csv_decode Sample.getcode x)
  = Ok [0; 92; 10; 955; 128512].
Proof.
  assert (H : is_str [0; 92; 10; 955; 128512]).
  { repeat constructor; unfold MAX_UNICODE; lia. }
  split; [exact H | exact (csv_decode_encode Sample.getcode _ H)].
Defined.

Lemma metadata_row_stored_witness :
  exists parsed md,
    fst (Sample.parse Sample.archive (Some (200, Some Sample.raw)) [])
    = Ok parsed /\
    parsed !! "metadata" = Some (Metadata md) /\
    md !! lit "Author" = Some (Sequence [lit "Alice"; lit "Bob"]).
Proof.
  exists (match fst (Sample.parse Sample.archive
                        (Some (200, Some Sample.raw)) []) with
          | Ok p => p
          | Raise _ => ∅
          end).
  destruct (metadata_row_stored Sample.getcode
              (Sample.reads Sample.raw Sample.archive) Sample.read_failure
              Sample._text_wrapper Sample.csv_reader 200 Sample.raw []
              Sample.archive
              (Sample.regular METADATA
                 (lit "title,MyDoc" ++ [10] ++ lit "Author,Alice,Bob"))
              [[lit "title"; lit "MyDoc" ++ [10]]]
              (lit "Author") (lit "Alice") [lit "Bob"] GStop)
    as [_ Hfinal].
  destruct Hfinal
    with (w' := [TarOpen Sample.raw])
         (parsed := match fst (Sample.parse Sample.archive
                                 (Some (200, Some Sample.raw)) []) with
                    | Ok p => p
                    | Raise _ => ∅
                    end)
    as (md & Hmd & Hkey).
  - discriminate.
  - reflexivity.
  - reflexivity.
  - reflexivity.
  - vm_compute. reflexivity.
  - intros row Hrow. now apply elem_of_nil in Hrow.
  - reflexivity.
  - exists md. split; [reflexivity |]. split; [exact Hmd | exact Hkey].
Defined.

Lemma short_row_raises_witness :
  (length [lit "orphan"] < 2)%nat /\
  fst (Sample.parse Sample.short_row (Some (200, Some Sample.raw)) [])
  = Raise AssertionError.
Proof.
  split; [cbn; lia |].
  apply (short_row_raises Sample.getcode
           (Sample.reads Sample.raw Sample.short_row) Sample.read_failure
           Sample._text_wrapper Sample.csv_reader 200 Sample.raw []
           Sample.short_row
           (Sample.regular METADATA (lit "title,MyDoc" ++ [10] ++ lit "orphan"))
           [[lit "title"; lit "MyDoc" ++ [10]]] [lit "orphan"] GStop).
  - discriminate.
  - reflexivity.
  - reflexivity.
  - reflexivity.
  - vm_compute. reflexivity.
  - cbn. lia.
Defined.

Lemma symlink_not_read_witness :
  exists parsed a,
    fst (Sample.parse Sample.linked (Some (200, Some Sample.raw)) [])
    = Ok parsed /\
    parsed !! "content" = Some (Content []) /\
    parsed !! "metadata" = Some (Metadata ∅) /\
    parsed !! "attachments" = Some (Attachments a) /\
    a !! TEXT = None.
Proof.
  destruct (symlink_not_read Sample.getcode
              (Sample.reads Sample.raw Sample.linked) Sample.read_failure
              Sample._text_wrapper Sample.csv_reader 200 Sample.raw
              [] [TarOpen Sample.raw] Sample.linked
              (match fst (Sample.parse Sample.linked
                            (Some (200, Some Sample.raw)) []) with
               | Ok p => p
               | Raise _ => ∅
               end))
    as (Hcontent & Hmetadata & Hlink & _).
  - discriminate.
  - reflexivity.
  - reflexivity.
  - destruct (Hlink TEXT (Sample.symlink TEXT)) as (a & Ha & Hnone);
      [reflexivity | reflexivity |].
    eexists. exists a. split; [reflexivity |].
    split; [apply (Hcontent (Sample.symlink TEXT)); reflexivity |].
    split; [apply (Hmetadata (Sample.symlink METADATA)); reflexivity |].
    split; [exact Ha | exact Hnone].
Defined.


Lemma reader_never_closed_witness :
  snd (Sample.parse Sample.short_row (Some (200, Some Sample.raw)) [])
  = [TarOpen Sample.raw] /\
  open_readers
    (snd (Sample.parse Sample.short_row (Some (200, Some Sample.raw)) []))
  = 1%nat /\
  Sample.parse Sample.short_row (Some (200, Some Sample.truncated)) []
  = (Raise ReadError, [TarOpen Sample.truncated]) /\
  Sample.parse Sample.short_row (Some (200, Some [7])) []
  = (Raise ReadError, []).
Proof.
  destruct (reader_never_closed Sample.getcode
              (Sample.reads Sample.raw Sample.short_row) Sample.read_failure
              Sample._text_wrapper Sample.csv_reader
              (Some (200, Some Sample.raw)) []) as (_ & _ & Hopen).
  destruct (Hopen 200 Sample.raw) as (Hleft & _ & _);
    [reflexivity | discriminate |].
  destruct (Hleft Sample.short_row) as [Hevents Hcount]; [reflexivity |].
  split; [exact Hevents |]. split; [exact Hcount |].
  split.
  - destruct (reader_never_closed Sample.getcode
                (Sample.reads Sample.raw Sample.short_row) Sample.read_failure
                Sample._text_wrapper Sample.csv_reader
                (Some (200, Some Sample.truncated)) []) as (_ & _ & Hcut).
    destruct (Hcut 200 Sample.truncated) as (_ & Hnames & _);
      [reflexivity | discriminate |].
    now destruct (Hnames ReadError) as [Hraise _].
  - destruct (reader_never_closed Sample.getcode
                (Sample.reads Sample.raw Sample.short_row) Sample.read_failure
                Sample._text_wrapper Sample.csv_reader
                (Some (200, Some [7])) []) as (_ & _ & Hbad).
    destruct (Hbad 200 [7]) as (_ & _ & Hnone);
      [reflexivity | discriminate |].
    now apply (Hnone ReadError).
Defined.


(** * More of the module *)

(** ** The escaped form of a line *)

Module EscapeFacts.
Import Codec CodecFacts.

Lemma hexdigit_alnum n :
  0 <= n < 16 ->
  48 <= Py_hexdigits n <= 57 \/ 97 <= Py_hexdigits n <= 102.
Proof.
  intros Hn. unfold Py_hexdigits.
  change (ord "0") with 48. change (ord "a") with 97.
  destruct (Z.ltb_spec n 10); lia.
Qed.

Lemma hexdigit_at_printable ch k : printable (hexdigit_at ch k).
Proof.
  unfold printable, hexdigit_at.
  destruct (hexdigit_alnum _ (nibble_range ch k)); lia.
Qed.

Lemma hexdigit_at_not_special ch k : csv_special (hexdigit_at ch k) = false.
Proof.
  unfold csv_special, hexdigit_at. change (ord ",") with 44.
  destruct (hexdigit_alnum _ (nibble_range ch k));
    apply orb_false_intro; apply Z.eqb_neq; lia.
Qed.

Lemma printable_ord (a : ascii) :
  (32 <=? ord a) && (ord a <? 127) = true -> printable (ord a).
Proof. unfold printable. intros H. apply andb_prop in H as [H1 H2]. lia. Qed.

(** The cases of [escape_char], with the facts each one rests on. *)
Lemma escape_char_cases ch :
  (printable ch /\ ch <> ord "\" /\ escape_char ch = [ch]) \/
  (ch = ord "\" /\ escape_char ch = [ord "\"; ord "\"]) \/
  (ch = 9 /\ escape_char ch = [ord "\"; ord "t"]) \/
  (ch = 10 /\ escape_char ch = [ord "\"; ord "n"]) \/
  (ch = 13 /\ escape_char ch = [ord "\"; ord "r"]) \/
  (~ printable ch /\
   escape_char ch = [ord "\"; ord "x"; hexdigit_at ch 4; hexdigit_at ch 0]) \/
  (~ printable ch /\
   escape_char ch = [ord "\"; ord "u"; hexdigit_at ch 12; hexdigit_at ch 8;
                     hexdigit_at ch 4; hexdigit_at ch 0]) \/
  (~ printable ch /\
   escape_char ch = [ord "\"; ord "U"; ord "0"; ord "0";
                     hexdigit_at ch 20; hexdigit_at ch 16; hexdigit_at ch 12;
                     hexdigit_at ch 8; hexdigit_at ch 4; hexdigit_at ch 0]).
Proof.
  unfold escape_char, printable.
  destruct (Z.ltb_spec ch 256) as [H256|H256].
  - destruct (Z.leb_spec 32 ch) as [H32|H32];
      [destruct (Z.ltb_spec ch 127) as [H127|H127] |]; cbn [andb].
    + destruct (Z.eqb_spec ch (ord "\")) as [->|Hne]; cbn [negb]; auto 10.
    + destruct (Z.eqb_spec ch 9); [lia |].
      destruct (Z.eqb_spec ch 10); [lia |].
      destruct (Z.eqb_spec ch 13); [lia |].
      do 5 right. left. split; [lia | reflexivity].
    + destruct (Z.eqb_spec ch 9); [auto 10 |].
      destruct (Z.eqb_spec ch 10); [auto 10 |].
      destruct (Z.eqb_spec ch 13); [auto 10 |].
      do 5 right. left. split; [lia | reflexivity].
  - destruct (Z.ltb_spec ch 65536).
    + do 6 right. left. split; [lia | reflexivity].
    + do 7 right. split; [lia | reflexivity].
Qed.

Lemma escape_char_printable ch : Forall printable (escape_char ch).
Proof.
  destruct (escape_char_cases ch)
    as [(Hp & _ & ->)|[(-> & ->)|[(-> & ->)|[(-> & ->)|[(-> & ->)|
        [(_ & ->)|[(_ & ->)|(_ & ->)]]]]]]];
    repeat first
      [ apply Forall_nil_2
      | apply Forall_cons_2;
        [ first [ assumption
                | apply hexdigit_at_printable
                | apply printable_ord; reflexivity ] | ] ].
Qed.

Lemma not_printable_not_special ch : ~ printable ch -> csv_special ch = false.
Proof.
  unfold printable, csv_special. change (ord ",") with 44. intros Hp.
  apply orb_false_intro; apply Z.eqb_neq; lia.
Qed.

Lemma escape_char_special ch :
  List.filter csv_special (escape_char ch) = List.filter csv_special [ch].
Proof.
  destruct (escape_char_cases ch)
    as [(Hp & _ & ->)|[(-> & ->)|[(-> & ->)|[(-> & ->)|[(-> & ->)|
        [(Hp & ->)|[(Hp & ->)|(Hp & ->)]]]]]]];
    try reflexivity;
    cbn [List.filter];
    rewrite !hexdigit_at_not_special, (not_printable_not_special _ Hp);
    reflexivity.
Qed.

Lemma encode_printable s : Forall printable (unicode_escape_encode s).
Proof.
  induction s as [|ch s IH]; [constructor |].
  cbn [unicode_escape_encode flat_map]. apply Forall_app.
  split; [apply escape_char_printable | exact IH].
Qed.

Lemma encode_special s :
  List.filter csv_special (unicode_escape_encode s) = List.filter csv_special s.
Proof.
  induction s as [|ch s IH]; [reflexivity |].
  cbn [unicode_escape_encode flat_map]. rewrite List.filter_app.
  rewrite escape_char_special. fold (unicode_escape_encode s). rewrite IH.
  cbn [List.filter app]. now destruct (csv_special ch).
Qed.

(** [_csv_encode] never raises. *)
Lemma csv_encode_Ok s : _csv_encode s = Ok (unicode_escape_encode s).
Proof. unfold _csv_encode, ascii_decode. now rewrite encode_ascii. Qed.

(** A printable character other than the backslash is its own escape. *)
Lemma encode_plain s :
  Forall (fun c => printable c /\ c <> ord "\") s ->
  unicode_escape_encode s = s.
Proof.
  induction 1 as [|ch s [Hp Hne] _ IH]; [reflexivity |].
  cbn [unicode_escape_encode flat_map]. fold (unicode_escape_encode s).
  rewrite IH. unfold escape_char, printable in *.
  destruct (Z.ltb_spec ch 256); [|lia].
  destruct (Z.leb_spec 32 ch); [|lia].
  destruct (Z.ltb_spec ch 127); [|lia]. cbn [andb].
  now destruct (Z.eqb_spec ch (ord "\")).
Qed.

Section Decode.
Variable getcode : list Z -> option Z.

Lemma decode_no_backslash s :
  Forall (fun c => c <> ord "\") s ->
  unicode_escape_decode getcode s = Ok s.
Proof.
  induction 1 as [|c s Hc _ IH]; [reflexivity |].
  rewrite decode_plain by assumption. now rewrite IH.
Qed.

Lemma decode_trailing_backslash s :
  Forall (fun c => c <> ord "\") s ->
  unicode_escape_decode getcode (s ++ [ord "\"]) = Raise UnicodeDecodeError.
Proof.
  induction 1 as [|c s Hc _ IH]; [reflexivity |].
  cbn [app]. rewrite decode_plain by assumption. now rewrite IH.
Qed.

End Decode.

Lemma ascii_encode_Ok s :
  Forall (fun c => c < 128) s -> ascii_encode s = Ok s.
Proof.
  intros Hs. unfold ascii_encode.
  replace (forallb (fun c => c <? 128) s) with true; [reflexivity |].
  symmetry. apply forallb_forall. intros c Hc.
  apply Z.ltb_lt. rewrite Forall_forall in Hs. apply Hs.
  now apply list_elem_of_In.
Qed.

End EscapeFacts.

(** ** Iterators through [gen_map] *)

Section GenFacts.
Context {A B : Type}.
Implicit Types (f : A -> Exc B) (g : Gen A).

(** Each value that comes out is the image of the value that went in at
    the same place. *)
Lemma gen_map_yields f g :
  Forall2 (fun b a => f a = Ok b)
    (gen_yields (gen_map f g))
    (take (length (gen_yields (gen_map f g))) (gen_yields g)).
Proof.
  induction g as [| e | a g IH]; cbn; [constructor | constructor |].
  destruct (f a) as [b|e] eqn:Hfa; cbn; [|constructor].
  constructor; [exact Hfa | exact IH].
Qed.

(** An iterator that yields nothing is left as it is. *)
Lemma gen_map_ended f (g : Gen A) (g' : Gen B) :
  gen_yields g = [] -> gen_end g = gen_end g' -> gen_yields g' = [] ->
  gen_map f g = g'.
Proof.
  destruct g as [| e | a g]; destruct g' as [| e' | b g'];
    cbn; try discriminate; congruence.
Qed.

End GenFacts.

Lemma exc_mapM_length {A B} (f : A -> Exc B) (l : list A) (l' : list B) :
  exc_mapM f l = Ok l' -> length l' = length l.
Proof.
  revert l'. induction l as [|x l IH]; intros l'; cbn.
  - now intros [= <-].
  - destruct (f x) as [y|]; [|discriminate]. cbn [exc_bind].
    destruct (exc_mapM f l) as [ys|]; [|discriminate]. cbn [exc_bind].
    intros [= <-]. cbn. f_equal. now apply IH.
Qed.

(** ** [_csv_encode], [_csv_decode] and [_wrapped_csv] *)

Section CsvWrapper.
Import EscapeFacts.

(** X1.  [_csv_encode] never raises, and its result is made of printable
    ASCII characters only: no null character, no carriage return and no
    line feed is ever handed to the CSV reader. *)
Theorem csv_encode_printable (x : list Z) :
  exists e, _csv_encode x = Ok e /\ Forall printable e.
Proof.
  exists (Codec.unicode_escape_encode x).
  split; [apply csv_encode_Ok | apply encode_printable].
Qed.

(** X2.  Escaping keeps the commas and the double quotes of a line, in
    their order, and adds none: the escape of another character has
    neither. *)
Theorem csv_encode_keeps_delimiters (x : list Z) :
  exists e, _csv_encode x = Ok e /\
            List.filter csv_special e = List.filter csv_special x.
Proof.
  exists (Codec.unicode_escape_encode x).
  split; [apply csv_encode_Ok | apply encode_special].
Qed.

(** X3.  [_escape_strs] yields one escaped line for each line of its
    input, in the same order, and ends as its input ends: it stops where
    the input stops and raises what the input raises. *)
Theorem escape_strs_lines (raw_data : Gen (list Z)) :
  Forall2 (fun line e => _csv_encode line = Ok e)
    (gen_yields raw_data) (gen_yields (_escape_strs raw_data)) /\
  gen_end (_escape_strs raw_data) = gen_end raw_data.
Proof.
  unfold _escape_strs.
  induction raw_data as [| e | line g [IHy IHe]]; cbn [gen_map];
    [split; [constructor | reflexivity] .. |].
  rewrite csv_encode_Ok. cbn. split; [|exact IHe].
  constructor; [apply csv_encode_Ok | exact IHy].
Qed.

Variable getcode : list Z -> option Z.

Lemma csv_decode_encoded s :
  is_str s -> _csv_decode getcode (Codec.unicode_escape_encode s) = Ok s.
Proof.
  intros Hs. unfold _csv_decode, Codec.ascii_encode.
  rewrite CodecFacts.encode_ascii. cbn [exc_bind].
  now apply CodecFacts.decode_encode.
Qed.

Lemma csv_decode_row row erow :
  Forall is_str row ->
  Forall2 (fun c e => _csv_encode c = Ok e) row erow ->
  exc_mapM (_csv_decode getcode) erow = Ok row.
Proof.
  intros Hrow Henc. induction Henc as [|c e row erow Hce _ IH]; [reflexivity |].
  apply Forall_cons in Hrow as [Hc Hrow].
  rewrite csv_encode_Ok in Hce. injection Hce as <-.
  cbn [exc_mapM]. rewrite csv_decode_encoded by assumption. cbn [exc_bind].
  now rewrite IH.
Qed.

(** X4.  On text that has nothing to escape the two functions do
    nothing: [_csv_encode] returns a string of printable characters
    without backslash as it is, and [_csv_decode] returns an ASCII string
    without backslash as it is. *)
Theorem csv_plain_text_unchanged (x : list Z) :
  (Forall (fun c => printable c /\ c <> ord "\") x -> _csv_encode x = Ok x) /\
  (Forall (fun c => 0 <= c < 128 /\ c <> ord "\") x ->
   _csv_decode getcode x = Ok x).
Proof.
  split; intros Hx.
  - rewrite csv_encode_Ok. f_equal. now apply encode_plain.
  - unfold _csv_decode. rewrite ascii_encode_Ok.
    + cbn [exc_bind]. apply decode_no_backslash.
      eapply Forall_impl; [exact Hx |]. now intros c [_ Hc].
    + eapply Forall_impl; [exact Hx |]. intros c [Hc _]. cbn. lia.
Qed.

(** X5.  [_csv_decode] is partial: an ASCII string that ends in a single
    backslash, with no other backslash before it, raises
    [UnicodeDecodeError]. *)
Theorem csv_decode_trailing_backslash (x : list Z) :
  Forall (fun c => 0 <= c < 128 /\ c <> ord "\") x ->
  _csv_decode getcode (x ++ [ord "\"]) = Raise UnicodeDecodeError.
Proof.
  intros Hx. unfold _csv_decode. rewrite ascii_encode_Ok.
  - cbn [exc_bind]. apply decode_trailing_backslash.
    eapply Forall_impl; [exact Hx |]. now intros c [_ Hc].
  - apply Forall_app. split.
    + eapply Forall_impl; [exact Hx |]. intros c [Hc _]. cbn. lia.
    + repeat constructor.
Qed.

Variable csv_reader : Gen (list Z) -> Gen (list (list Z)).

(** X6.  When the cells of the rows that the CSV reader returns are the
    escaped forms of strings, [_wrapped_csv] yields these strings, row by
    row, and then ends as the reader ends. *)
Theorem wrapped_csv_unescapes_rows (csv_data : Gen (list Z))
    (rows erows : list (list (list Z))) (tail : Gen (list (list Z))) :
  Forall (Forall is_str) rows ->
  Forall2 (Forall2 (fun c e => _csv_encode c = Ok e)) rows erows ->
  gen_yields tail = [] ->
  csv_reader (_escape_strs csv_data) = gen_app erows tail ->
  _wrapped_csv getcode csv_reader csv_data = gen_app rows tail.
Proof.
  intros Hrows Henc Htail Hreader. unfold _wrapped_csv. rewrite Hreader.
  clear Hreader. induction Henc as [|row erow rows erows Hrow _ IH].
  - cbn [gen_app]. now apply gen_map_ended.
  - apply Forall_cons in Hrows as [Hstr Hrows].
    cbn [gen_app gen_map]. rewrite (csv_decode_row _ _ Hstr Hrow).
    now rewrite IH.
Qed.

(** X7.  A row of [_wrapped_csv] is a row of the CSV reader, cell by cell
    unescaped: the rows come in the order of the reader and each has as
    many fields as the reader gave it. *)
Theorem wrapped_csv_keeps_fields (csv_data : Gen (list Z)) :
  let out := gen_yields (_wrapped_csv getcode csv_reader csv_data) in
  let rows := gen_yields (csv_reader (_escape_strs csv_data)) in
  Forall2 (fun o r => exc_mapM (_csv_decode getcode) r = Ok o /\
                      length o = length r)
    out (take (length out) rows).
Proof.
  cbn zeta. unfold _wrapped_csv.
  eapply Forall2_impl; [apply gen_map_yields |].
  intros o r Hor. split; [exact Hor | now apply exc_mapM_length in Hor].
Qed.

End CsvWrapper.

(** ** Text *)

Module TextFacts.
Import Codec.

(** Universal newlines leave no carriage return behind. *)
Lemma universal_newlines_no_cr s : 13 ∉ universal_newlines s.
Proof.
  assert (H : (13 ∉ universal_newlines s) /\
              (forall c, 13 ∉ universal_newlines (c :: s))).
  { induction s as [|d s [IH1 IH2]].
    - split; [apply not_elem_of_nil |]. intros c. cbn.
      destruct (Z.eqb_spec c 13) as [->|Hc];
        apply not_elem_of_cons; split; try lia; try done;
        apply not_elem_of_nil.
    - split; [apply IH2 |]. intros c.
      cbn [universal_newlines].
      destruct (Z.eqb_spec c 13) as [->|Hc].
      + destruct (Z.eqb_spec d 10) as [->|Hd];
          apply not_elem_of_cons; (split; [lia |]); [exact IH1 | apply IH2].
      + apply not_elem_of_cons. split; [congruence | apply IH2]. }
  apply H.
Qed.

(** They leave a text without carriage return as it is. *)
Lemma universal_newlines_id s : 13 ∉ s -> universal_newlines s = s.
Proof.
  induction s as [|c s IH]; [reflexivity |]. intros Hs.
  apply not_elem_of_cons in Hs as [Hc Hs]. cbn [universal_newlines].
  destruct (Z.eqb_spec c 13); [congruence |]. f_equal. now apply IH.
Qed.

Lemma write_char_raises c r e :
  write_char c r = Raise e -> r = Raise e.
Proof. destruct r; cbn; congruence. Qed.

(** The UTF-8 decoder raises nothing but [UnicodeDecodeError]. *)
Lemma utf8_decode_raises b e :
  utf8_decode b = Raise e -> e = UnicodeDecodeError.
Proof.
  remember (length b) as n eqn:Hn. revert b Hn.
  induction n as [n IH] using lt_wf_ind. intros b Hn.
  destruct b as [|b0 s1]; [discriminate |]. cbn [utf8_decode].
  repeat match goal with
         | |- context [if ?c then _ else _] => destruct c
         | |- context [match ?l with [] => _ | _ :: _ => _ end] =>
             is_var l; destruct l
         end;
    try (intros [= <-]; reflexivity);
    intros Hr; apply write_char_raises in Hr;
    (eapply IH; [| reflexivity | exact Hr]); subst n; cbn; lia.
Qed.

End TextFacts.

(** ** Names and members *)

Module NameFacts.
Import tarfile TarFacts.

Lemma list_remove_in x y l : x <> y -> x ∈ list_remove y l <-> x ∈ l.
Proof.
  intros Hne. split; [apply list_remove_subseteq | now apply list_remove_other].
Qed.

Lemma list_remove_NoDup x l : NoDup l -> NoDup (list_remove x l).
Proof.
  induction 1 as [|y l Hy Hl IH]; [constructor |]. cbn [list_remove].
  destruct (bool_decide (y = x)); [exact Hl |].
  constructor; [|exact IH]. intros Hin. apply Hy.
  now apply list_remove_subseteq in Hin.
Qed.

(** Once removed, a name that occurred once is gone. *)
Lemma list_remove_gone x l : NoDup l -> x ∉ list_remove x l.
Proof.
  induction 1 as [|y l Hy Hl IH]; [apply not_elem_of_nil |].
  cbn [list_remove]. destruct (bool_decide (y = x)) eqn:Hyx.
  - now apply bool_decide_eq_true in Hyx as <-.
  - apply bool_decide_eq_false in Hyx.
    apply not_elem_of_cons. split; [congruence | exact IH].
Qed.

Lemma list_remove_comm x y l :
  list_remove x (list_remove y l) = list_remove y (list_remove x l).
Proof.
  induction l as [|z l IH]; [reflexivity |]. cbn [list_remove].
  destruct (bool_decide (z = y)) eqn:Hzy, (bool_decide (z = x)) eqn:Hzx;
    cbn [list_remove]; rewrite ?Hzy, ?Hzx; try reflexivity.
  - apply bool_decide_eq_true in Hzy as ->.
    now apply bool_decide_eq_true in Hzx as ->.
  - now rewrite IH.
Qed.



Lemma getmember_absent t n :
  rstrip_slash n ∉ getnames t -> getmember t n = Raise KeyError.
Proof.
  intros Hn. unfold getmember. now rewrite (_getmember_None _ _ Hn).
Qed.

(** With distinct names, a member is what its name is looked up to. *)
Lemma _getmember_NoDup t m :
  NoDup (getnames t) -> m ∈ t -> _getmember t (name m) = Some m.
Proof.
  intros Hnd Hm.
  destruct (_getmember_of_name t (name m)) as [m' Hm'].
  { unfold getnames. now apply list_elem_of_fmap_2. }
  rewrite Hm'. f_equal. apply _getmember_Some in Hm' as [Hname Hin'].
  clear -Hnd Hm Hname Hin'. unfold getnames in Hnd.
  induction t as [|x t IH]; [now apply elem_of_nil in Hm |].
  cbn in Hnd. apply NoDup_cons in Hnd as [Hx Hnd].
  apply elem_of_cons in Hm as [->|Hm], Hin' as [->|Hin']; auto.
  - exfalso. apply Hx. rewrite <- Hname. now apply list_elem_of_fmap_2.
  - exfalso. apply Hx. rewrite Hname. now apply list_elem_of_fmap_2.
Qed.

(** With distinct names, a member whose name does not end in a slash is
    what its name denotes. *)
Lemma getmember_NoDup t m :
  NoDup (getnames t) -> rstrip_slash (name m) = name m -> m ∈ t ->
  getmember t (name m) = Ok m.
Proof.
  intros Hnd Hslash Hm. unfold getmember.
  now rewrite Hslash, (_getmember_NoDup _ _ Hnd Hm).
Qed.



End NameFacts.

(** ** More on [_parse] *)

Section Decoder.
Import tarfile TarFacts NameFacts TextFacts.

(** What the attachments hold, name by name. *)
Lemma attachments_lookup t a n :
  extract_attachments t (remaining t) ∅ = Ok a ->
  a !! n =
  if decide (n ∈ remaining t) then
    match getmember t n with
    | Ok m => if isfile m then Some (data m) else None
    | Raise _ => None
    end
  else None.
Proof.
  intros Ha. rewrite (extract_attachments_lookup _ _ _ _ Ha), lookup_empty.
  destruct (decide _); [|reflexivity].
  destruct (getmember t n) as [m|]; [|reflexivity]. now destruct (isfile m).
Qed.

(** Where a content comes from. *)
Lemma extract_content_inv t names c names' :
  extract_content t names = Ok (c, names') ->
  c = [] \/
  exists m s, TEXT ∈ names /\ getmember t TEXT = Ok m /\ isfile m = true /\
              Codec.utf8_decode (data m) = Ok s /\
              c = Codec.universal_newlines s.
Proof.
  unfold extract_content. case_bool_decide as Hin; [|intros [= <- _]; now left].
  destruct (getmember t TEXT) as [m|] eqn:Hm; [|discriminate]. cbn [exc_bind].
  rewrite regular_test. destruct (isfile m) eqn:Hfile;
    [|intros [= <- _]; now left].
  unfold _text_wrapper_utf8_read, extractfile_read, exc_map.
  destruct (Codec.utf8_decode (data m)) as [s|] eqn:Hs; [|discriminate].
  cbn [exc_bind]. intros [= <- _]. right. now exists m, s.
Qed.

Variable getcode : list Z -> option Z.
Variable read_archive : list Z -> option TarFile.
Variable read_failure : list Z -> exn * bool.
Variable _text_wrapper : list Z -> Gen (list Z).
Variable csv_reader : Gen (list Z) -> Gen (list (list Z)).

Local Abbreviation parse := (_parse getcode read_archive read_failure _text_wrapper csv_reader).
Local Abbreviation metadata_block :=
  (extract_metadata getcode _text_wrapper csv_reader).
Local Abbreviation members_block :=
  (parse_members getcode _text_wrapper csv_reader).
Local Abbreviation rows_of :=
  (fun m : TarInfo =>
     _wrapped_csv getcode csv_reader (_text_wrapper (extractfile_read m))).

(** Where a metadata comes from. *)
Lemma extract_metadata_inv t names md names' :
  metadata_block t names = Ok (md, names') ->
  md = ∅ \/
  exists m, getmember t METADATA = Ok m /\ isfile m = true /\
            metadata_loop (rows_of m) ∅ = Ok md.
Proof.
  unfold extract_metadata. case_bool_decide as Hin; [|intros [= <- _]; now left].
  destruct (getmember t METADATA) as [m|] eqn:Hm; [|discriminate].
  cbn [exc_bind]. rewrite regular_test. destruct (isfile m) eqn:Hfile;
    [|intros [= <- _]; now left].
  destruct (metadata_loop _ ∅) as [md'|] eqn:Hloop; [|discriminate].
  cbn [exc_bind]. intros [= <- _]. right. now exists m.
Qed.

(** A result of [_parse], block by block. *)
Lemma parse_Ok_blocks st raw t w parsed w' :
  raw <> [] -> read_archive raw = Some t ->
  parse (Some (st, Some raw)) w = (Ok parsed, w') ->
  exists md c a,
    metadata_block t (getnames t) = Ok (md, list_remove METADATA (getnames t)) /\
    extract_content t (list_remove METADATA (getnames t)) = Ok (c, remaining t) /\
    extract_attachments t (remaining t) ∅ = Ok a /\
    parsed = <["attachments" := Attachments a]>
               (<["metadata" := Metadata md]> (<["content" := Content c]> ∅)).
Proof.
  intros Hraw Ht Hparse. rewrite (parse_opened _ _ _ _ _ _ _ _ _ Hraw Ht) in Hparse.
  injection Hparse as Hmembers _. now apply parse_members_Ok.
Qed.

Lemma parse_Ok_inv tarOutput w parsed w' :
  parse tarOutput w = (Ok parsed, w') ->
  parsed = ∅ \/
  exists t md c a names1 names2,
    metadata_block t (getnames t) = Ok (md, names1) /\
    extract_content t names1 = Ok (c, names2) /\
    parsed = <["attachments" := Attachments a]>
               (<["metadata" := Metadata md]> (<["content" := Content c]> ∅)).
Proof.
  destruct (no_response tarOutput) eqn:Hresp.
  - rewrite parse_no_response by assumption. intros [= <- _]. now left.
  - destruct tarOutput as [[st [[|b raw]|]]|]; try discriminate Hresp.
    intros Hparse. right.
    destruct (read_archive (b :: raw)) as [t|] eqn:Ht.
    + destruct (parse_Ok_blocks st (b :: raw) t w parsed w' ltac:(done) Ht Hparse)
        as (md & c & a & Hmd & Hc & _ & ->).
      now exists t, md, c, a, (list_remove METADATA (getnames t)), (remaining t).
    + destruct (read_failure (b :: raw)) as [e opened] eqn:Hf.
      rewrite (parse_unreadable _ _ _ _ _ st (b :: raw) w e opened
                 ltac:(done) Ht Hf) in Hparse.
      discriminate.
Qed.


(** X9.  When [__TEXT__] denotes a regular file of valid UTF-8, the content
    of a result is the decoded text with every "\r\n" and every other
    "\r" turned into "\n"; it is the decoded text itself when that has no
    carriage return. *)
Theorem text_content (st : Z) (raw : list Z) (w w' : World) (t : TarFile)
    (m : TarInfo) (s : list Z) (parsed : gmap string Field) :
  raw <> [] ->
  read_archive raw = Some t ->
  getmember t TEXT = Ok m ->
  isfile m = true ->
  Codec.utf8_decode (data m) = Ok s ->
  parse (Some (st, Some raw)) w = (Ok parsed, w') ->
  parsed !! "content" = Some (Content (Codec.universal_newlines s)) /\
  (13 ∉ s -> parsed !! "content" = Some (Content s)).
Proof.
  intros Hraw Ht Hm Hfile Hs Hparse.
  destruct (parse_Ok_blocks _ _ _ _ _ _ Hraw Ht Hparse)
    as (md & c & a & _ & Hc & _ & ->).
  rewrite (extract_content_file _ _ m) in Hc; try done.
  - unfold _text_wrapper_utf8_read, extractfile_read, exc_map in Hc.
    rewrite Hs in Hc. injection Hc as <-.
    split; [now rewrite !lookup_insert |].
    intros Hcr. now rewrite universal_newlines_id, !lookup_insert.
  - apply list_remove_other; [discriminate |].
    now apply (getmember_in_names _ _ m rstrip_TEXT).
Qed.

(** X10.  The content of a result never has a carriage return in it. *)
Theorem content_no_carriage_return (tarOutput : option (Z * option (list Z)))
    (w w' : World) (parsed : gmap string Field) (c : list Z) :
  parse tarOutput w = (Ok parsed, w') ->
  parsed !! "content" = Some (Content c) ->
  13 ∉ c.
Proof.
  intros Hparse Hcontent.
  apply parse_Ok_inv in Hparse
    as [->|(t & md & c' & a & names1 & names2 & _ & Hc & ->)].
  - now rewrite lookup_empty in Hcontent.
  - rewrite !lookup_insert in Hcontent. cbn in Hcontent.
    injection Hcontent as ->.
    apply extract_content_inv in Hc as [->|(m & s & _ & _ & _ & _ & ->)].
    + apply not_elem_of_nil.
    + apply universal_newlines_no_cr.
Qed.

End Decoder.

(** ** More on the metadata rows *)

Module RowMore.

Implicit Types (md : gmap (list Z) MetaValue) (row : list (list Z)).

Lemma store_row_Ok md row :
  (2 <= length row)%nat ->
  exists v, head row = Some (fst v) /\
            store_row md row = Ok (<[fst v := snd v]> md) /\
            forall vs, snd v = Sequence vs -> (2 <= length vs)%nat.
Proof.
  destruct row as [|k [|v1 [|v2 vs]]]; cbn; try lia; intros _.
  - exists (k, Scalar v1). cbn. repeat split. discriminate.
  - exists (k, Sequence (v1 :: v2 :: vs)). cbn. repeat split.
    intros ? [= <-]. cbn. lia.
Qed.

Lemma store_row_Ok_inv md row md' :
  store_row md row = Ok md' -> (2 <= length row)%nat.
Proof.
  unfold store_row. destruct (2 <=? length row)%nat eqn:Hlen; [|discriminate].
  intros _. now apply Nat.leb_le.
Qed.

(** The keys after the loop: those before it and the first fields of the
    rows. *)
Lemma metadata_loop_keys g md0 md k :
  metadata_loop g md0 = Ok md ->
  is_Some (md !! k) <->
  is_Some (md0 !! k) \/ exists row, row ∈ gen_yields g /\ head row = Some k.
Proof.
  revert md0. induction g as [| e | row g IH]; intros md0; cbn.
  - intros [= <-]. split; [now left |]. intros [H|(row & Hrow & _)]; [done |].
    now apply elem_of_nil in Hrow.
  - discriminate.
  - destruct (store_row md0 row) as [md1|] eqn:Hrow; [|discriminate].
    cbn [exc_bind]. intros Hloop. rewrite (IH _ Hloop).
    destruct (store_row_Ok md0 row (store_row_Ok_inv _ _ _ Hrow))
      as ([k' v] & Hhead & Hstore & _). cbn in *.
    rewrite Hrow in Hstore. injection Hstore as ->.
    split.
    + intros [Hk|(r & Hr & Hhr)].
      * destruct (decide (k' = k)) as [->|Hne].
        -- right. exists row. split; [apply elem_of_cons; now left | done].
        -- left. now rewrite lookup_insert_ne in Hk.
      * right. exists r. split; [apply elem_of_cons; now right | done].
    + intros [Hk|(r & Hr & Hhr)].
      * left. destruct (decide (k' = k)) as [->|Hne].
        -- rewrite lookup_insert_eq. eauto.
        -- now rewrite lookup_insert_ne.
      * apply elem_of_cons in Hr as [->|Hr].
        -- left. rewrite Hhead in Hhr. injection Hhr as ->.
           rewrite lookup_insert_eq. eauto.
        -- right. eauto.
Qed.

(** No sequence of fewer than two values is ever stored. *)
Lemma metadata_loop_sequences g md0 md :
  sequences_long md0 -> metadata_loop g md0 = Ok md -> sequences_long md.
Proof.
  revert md0. induction g as [| e | row g IH]; intros md0 Hinv; cbn.
  - now intros [= <-].
  - discriminate.
  - destruct (store_row md0 row) as [md1|] eqn:Hrow; [|discriminate].
    cbn [exc_bind]. apply IH.
    destruct (store_row_Ok md0 row (store_row_Ok_inv _ _ _ Hrow))
      as ([k' v] & _ & Hstore & Hv). cbn in *.
    rewrite Hrow in Hstore. injection Hstore as ->.
    intros k vs. destruct (decide (k' = k)) as [->|Hne].
    + rewrite lookup_insert_eq. intros [= ->]. now apply Hv.
    + rewrite lookup_insert_ne by done. apply Hinv.
Qed.

(** With rows of two fields or more, the loop ends as the reader ends. *)
Lemma metadata_loop_outcome g md :
  Forall (fun row => (2 <= length row)%nat) (gen_yields g) ->
  match gen_end g with
  | None => exists md', metadata_loop g md = Ok md'
  | Some e => metadata_loop g md = Raise e
  end.
Proof.
  revert md. induction g as [| e | row g IH]; intros md Hrows; cbn.
  - eauto.
  - reflexivity.
  - cbn in Hrows. apply Forall_cons in Hrows as [Hrow Hrows].
    destruct (store_row_Ok md row Hrow) as (v & _ & -> & _). cbn [exc_bind].
    now apply IH.
Qed.

End RowMore.

Section Rows.
Import tarfile TarFacts NameFacts TextFacts RowMore.

Variable getcode : list Z -> option Z.
Variable read_archive : list Z -> option TarFile.
Variable read_failure : list Z -> exn * bool.
Variable _text_wrapper : list Z -> Gen (list Z).
Variable csv_reader : Gen (list Z) -> Gen (list (list Z)).

Local Abbreviation parse := (_parse getcode read_archive read_failure _text_wrapper csv_reader).
Local Abbreviation metadata_block :=
  (extract_metadata getcode _text_wrapper csv_reader).
Local Abbreviation rows_of :=
  (fun m : TarInfo =>
     _wrapped_csv getcode csv_reader (_text_wrapper (extractfile_read m))).

(** X11.  A [__TEXT__] that is a regular file and not valid UTF-8 makes
    [_parse] raise [UnicodeDecodeError], unless the metadata, which is
    read first, has raised before: then that exception is the one
    raised. *)
Theorem invalid_text_raises (st : Z) (raw : list Z) (w : World) (t : TarFile)
    (m : TarInfo) :
  raw <> [] ->
  read_archive raw = Some t ->
  getmember t TEXT = Ok m ->
  isfile m = true ->
  (forall s, Codec.utf8_decode (data m) <> Ok s) ->
  fst (parse (Some (st, Some raw)) w)
  = match metadata_block t (getnames t) with
    | Ok _ => Raise UnicodeDecodeError
    | Raise e => Raise e
    end.
Proof.
  intros Hraw Ht Hm Hfile Hbad.
  rewrite (parse_opened _ _ _ _ _ _ _ _ _ Hraw Ht). cbn [fst].
  unfold parse_members.
  destruct (metadata_block t (getnames t)) as [[md names1]|e1] eqn:Hmd;
    [|reflexivity].
  cbn [exc_bind].
  destruct (Codec.utf8_decode (data m)) as [s|e] eqn:Hdec; [now destruct (Hbad s) |].
  pose proof (utf8_decode_raises _ _ Hdec) as ->.
  rewrite (extract_content_invalid_utf8 t names1 m UnicodeDecodeError); try done.
  rewrite (extract_metadata_names _ _ _ _ _ _ _ Hmd).
  apply list_remove_other; [discriminate |].
  now apply (getmember_in_names _ _ m rstrip_TEXT).
Qed.

(** X12.  The keys of the metadata of a result are the first fields of
    the rows that were read, no more and no less. *)
Theorem metadata_keys_are_row_keys (st : Z) (raw : list Z) (w w' : World)
    (t : TarFile) (m : TarInfo) (parsed : gmap string Field) :
  raw <> [] ->
  read_archive raw = Some t ->
  getmember t METADATA = Ok m ->
  isfile m = true ->
  parse (Some (st, Some raw)) w = (Ok parsed, w') ->
  exists md,
    parsed !! "metadata" = Some (Metadata md) /\
    forall k, is_Some (md !! k) <->
              exists row, row ∈ gen_yields (rows_of m) /\ head row = Some k.
Proof.
  intros Hraw Ht Hm Hfile Hparse.
  destruct (parse_Ok_blocks _ _ _ _ _ _ _ _ _ _ _ Hraw Ht Hparse)
    as (md & c & a & Hmd & _ & _ & ->).
  exists md. split; [now rewrite lookup_insert_ne, lookup_insert |].
  rewrite (extract_metadata_file _ _ _ _ _ Hm Hfile) in Hmd.
  destruct (metadata_loop _ ∅) as [md'|] eqn:Hloop; [|discriminate].
  injection Hmd as ->. intros k.
  rewrite (metadata_loop_keys _ _ _ k Hloop), lookup_empty.
  split; [|now right]. intros [[? [=]]|H]; exact H.
Qed.

(** X13.  In the metadata of a result a sequence always has two values or
    more: a single value is never stored as a sequence. *)
Theorem metadata_sequences_have_two_values
    (tarOutput : option (Z * option (list Z))) (w w' : World)
    (parsed : gmap string Field) (md : gmap (list Z) MetaValue) :
  parse tarOutput w = (Ok parsed, w') ->
  parsed !! "metadata" = Some (Metadata md) ->
  sequences_long md.
Proof.
  intros Hparse Hmd.
  apply parse_Ok_inv in Hparse
    as [->|(t & md' & c & a & names1 & names2 & Hblock & _ & ->)].
  - now rewrite lookup_empty in Hmd.
  - rewrite lookup_insert_ne, lookup_insert in Hmd by done. cbn in Hmd.
    injection Hmd as ->.
    apply extract_metadata_inv in Hblock as [->|(m & _ & _ & Hloop)].
    + intros k vs. now rewrite lookup_empty.
    + eapply metadata_loop_sequences; [|exact Hloop].
      intros k vs. now rewrite lookup_empty.
Qed.

(** X14.  When every row of a regular [__METADATA__] has two fields or
    more, the metadata fails only as its reader fails: an exception of
    the reader (of the line iterator, of the CSV reader, of the
    unescaping) comes out of [_parse] as it is, and a reader that stops
    gives a metadata. *)
Theorem metadata_reader_outcome (st : Z) (raw : list Z) (w : World)
    (t : TarFile) (m : TarInfo) :
  raw <> [] ->
  read_archive raw = Some t ->
  getmember t METADATA = Ok m ->
  isfile m = true ->
  Forall (fun row => (2 <= length row)%nat) (gen_yields (rows_of m)) ->
  (forall e, gen_end (rows_of m) = Some e ->
             fst (parse (Some (st, Some raw)) w) = Raise e) /\
  (gen_end (rows_of m) = None ->
   exists md, metadata_block t (getnames t)
              = Ok (md, list_remove METADATA (getnames t))).
Proof.
  intros Hraw Ht Hm Hfile Hrows.
  pose proof (metadata_loop_outcome _ ∅ Hrows) as Hout.
  split.
  - intros e He. rewrite He in Hout.
    rewrite (parse_opened _ _ _ _ _ _ _ _ _ Hraw Ht). cbn [fst].
    unfold parse_members.
    now rewrite (extract_metadata_file _ _ _ _ _ Hm Hfile), Hout.
  - intros He. rewrite He in Hout. destruct Hout as [md Hloop].
    exists md. now rewrite (extract_metadata_file _ _ _ _ _ Hm Hfile), Hloop.
Qed.

End Rows.

(** ** The order of the members *)

Module OrderFacts.
Import tarfile TarFacts NameFacts.



End OrderFacts.

Section Attachments.
Import tarfile TarFacts NameFacts OrderFacts.

Variable getcode : list Z -> option Z.
Variable read_archive : list Z -> option TarFile.
Variable read_failure : list Z -> exn * bool.
Variable _text_wrapper : list Z -> Gen (list Z).
Variable csv_reader : Gen (list Z) -> Gen (list (list Z)).

Local Abbreviation parse := (_parse getcode read_archive read_failure _text_wrapper csv_reader).
Local Abbreviation metadata_block :=
  (extract_metadata getcode _text_wrapper csv_reader).
Local Abbreviation members_block :=
  (parse_members getcode _text_wrapper csv_reader).



(** X15.  The attachments of a result hold nothing but regular files: a
    key is a name left in the working list for which [getmember] finds a
    regular file, and its value is the data of that file.  The file found
    is a member of the archive that bears the key without the slashes at
    its end: for a key that ends in a slash, another member than the one
    that gave the key. *)
Theorem attachments_only_regular_files (st : Z) (raw : list Z) (w w' : World)
    (t : TarFile) (parsed : gmap string Field)
    (a : gmap (list Z) (list Z)) (n v : list Z) :
  raw <> [] ->
  read_archive raw = Some t ->
  parse (Some (st, Some raw)) w = (Ok parsed, w') ->
  parsed !! "attachments" = Some (Attachments a) ->
  a !! n = Some v ->
  n ∈ remaining t /\
  exists m, getmember t n = Ok m /\ isfile m = true /\ v = data m /\
            m ∈ t /\ name m = rstrip_slash n.
Proof.
  intros Hraw Ht Hparse Hatt Hn.
  destruct (parse_Ok_blocks _ _ _ _ _ _ _ _ _ _ _ Hraw Ht Hparse)
    as (md & c & a' & _ & _ & Ha & ->).
  rewrite lookup_insert in Hatt. cbn in Hatt. injection Hatt as ->.
  rewrite (attachments_lookup _ _ n Ha) in Hn.
  destruct (decide (n ∈ remaining t)) as [Hin|]; [|discriminate].
  split; [exact Hin |].
  destruct (getmember t n) as [m|] eqn:Hm; [|discriminate].
  destruct (isfile m) eqn:Hfile; [|discriminate].
  injection Hn as <-. destruct (getmember_Ok _ _ _ Hm) as [Hname Hmem].
  now exists m.
Qed.

(** X16.  When the names of the archive are distinct, [__METADATA__] and
    [__TEXT__] are no keys of the attachments, regular files or not. *)
Theorem unique_special_names_not_attached (st : Z) (raw : list Z)
    (w w' : World) (t : TarFile) (parsed : gmap string Field) :
  raw <> [] ->
  read_archive raw = Some t ->
  NoDup (getnames t) ->
  parse (Some (st, Some raw)) w = (Ok parsed, w') ->
  exists a, parsed !! "attachments" = Some (Attachments a) /\
            a !! METADATA = None /\ a !! TEXT = None.
Proof.
  intros Hraw Ht Hnd Hparse.
  destruct (parse_Ok_blocks _ _ _ _ _ _ _ _ _ _ _ Hraw Ht Hparse)
    as (md & c & a & _ & _ & Ha & ->).
  exists a. split; [now rewrite lookup_insert |].
  rewrite !(attachments_lookup _ _ _ Ha). unfold remaining. split.
  - rewrite decide_False; [reflexivity |].
    rewrite list_remove_in by discriminate. now apply list_remove_gone.
  - rewrite decide_False; [reflexivity |].
    now apply list_remove_gone, list_remove_NoDup.
Qed.

(** X17.  [memberNames.remove] takes one occurrence away.  A special name
    that is still among the names after that, and denotes a regular
    file, is a key of the attachments as well, with the data of that
    file. *)
Theorem repeated_special_name_attached (st : Z) (raw : list Z) (w w' : World)
    (t : TarFile) (m : TarInfo) (special : list Z)
    (parsed : gmap string Field) :
  raw <> [] ->
  read_archive raw = Some t ->
  special = METADATA \/ special = TEXT ->
  special ∈ list_remove special (getnames t) ->
  getmember t special = Ok m ->
  isfile m = true ->
  parse (Some (st, Some raw)) w = (Ok parsed, w') ->
  exists a, parsed !! "attachments" = Some (Attachments a) /\
            a !! special = Some (data m).
Proof.
  intros Hraw Ht Hspecial Hagain Hm Hfile Hparse.
  destruct (parse_Ok_blocks _ _ _ _ _ _ _ _ _ _ _ Hraw Ht Hparse)
    as (md & c & a & _ & _ & Ha & ->).
  exists a. split; [now rewrite lookup_insert |].
  rewrite (attachments_lookup _ _ _ Ha), Hm, Hfile.
  rewrite decide_True; [reflexivity |]. unfold remaining.
  destruct Hspecial as [-> | ->].
  - now apply list_remove_other; [discriminate |].
  - rewrite list_remove_comm. now apply list_remove_other; [discriminate |].
Qed.

(** X18.  When the names of the archive are distinct, every member other
    than [__METADATA__] and [__TEXT__] has its name looked up in a decode
    that returns, and the lookup finds the one member that bears the name
    without the slashes at its end.  The name is in the attachments with
    the data of the member found if that is a regular file, and is not in
    them if it is not.  For a member whose name does not end in a slash,
    the member found is the member itself. *)
Theorem members_with_distinct_names (st : Z) (raw : list Z) (w w' : World)
    (t : TarFile) (m : TarInfo) (parsed : gmap string Field) :
  raw <> [] ->
  read_archive raw = Some t ->
  NoDup (getnames t) ->
  m ∈ t ->
  name m <> METADATA ->
  name m <> TEXT ->
  parse (Some (st, Some raw)) w = (Ok parsed, w') ->
  exists a m',
    parsed !! "attachments" = Some (Attachments a) /\
    getmember t (name m) = Ok m' /\
    m' ∈ t /\ name m' = rstrip_slash (name m) /\
    a !! name m = (if isfile m' then Some (data m') else None) /\
    (rstrip_slash (name m) = name m -> m' = m).
Proof.
  intros Hraw Ht Hnd Hm Hnmd Hntext Hparse.
  destruct (parse_Ok_blocks _ _ _ _ _ _ _ _ _ _ _ Hraw Ht Hparse)
    as (md & c & a & _ & _ & Ha & ->).
  assert (Hin : name m ∈ remaining t).
  { unfold remaining. rewrite !list_remove_in by done.
    unfold getnames. now apply list_elem_of_fmap_2. }
  destruct (extract_attachments_denote _ _ _ _ _ Ha Hin) as [m' Hm'].
  exists a, m'. split; [now rewrite lookup_insert |].
  split; [exact Hm' |].
  destruct (getmember_Ok _ _ _ Hm') as [Hname Hin'].
  split; [exact Hin' |]. split; [exact Hname |]. split.
  - rewrite (attachments_lookup _ _ _ Ha), Hm'. now rewrite decide_True.
  - intros Hslash. rewrite (getmember_NoDup _ _ Hnd Hslash Hm) in Hm'.
    now injection Hm' as <-.
Qed.


End Attachments.

(** ** The entry points *)

Section EntryFacts.

Variable getcode : list Z -> option Z.
Variable read_archive : list Z -> option tarfile.TarFile.
Variable read_failure : list Z -> exn * bool.
Variable _text_wrapper : list Z -> Gen (list Z).
Variable csv_reader : Gen (list Z) -> Gen (list (list Z)).
Variable parse1 :
  list Z -> list Z -> list Z -> list Z -> gmap (list Z) (list Z) -> bool ->
  M (option (Z * option (list Z))).
Variable callServer :
  list Z -> list Z -> list Z -> list Z -> gmap (list Z) (list Z) -> bool ->
  bool -> M (Z * option (list Z)).

Local Abbreviation parse := (_parse getcode read_archive read_failure _text_wrapper csv_reader).
Local Abbreviation file_entry :=
  (from_file getcode read_archive read_failure _text_wrapper csv_reader parse1).
Local Abbreviation buffer_entry :=
  (from_buffer getcode read_archive read_failure _text_wrapper csv_reader callServer).
Local Abbreviation file_request :=
  (fun filename serverEndpoint =>
     parse1 (lit "unpack") filename serverEndpoint (lit "application/x-tar")
       (<[lit "meta" := lit "/meta"]>
          (<[lit "text" := lit "/tika"]>
             (<[lit "all" := lit "/rmeta/xml"]>
                (<[lit "unpack" := lit "/unpack/all"]> ∅))))
       true).
Local Abbreviation buffer_request :=
  (fun string_ serverEndpoint =>
     callServer (lit "put") serverEndpoint (lit "/unpack/all") string_
       (<[lit "Accept" := lit "application/x-tar"]> ∅) false true).

(** X20.  Neither entry point raises on a missing or empty response: when
    the request gives no output, or an output whose response is [None]
    or zero-length, the result is the empty dict and no archive is
    opened.  An exception of the request comes out as it is. *)
Theorem entry_points_empty_response (filename string_ serverEndpoint : list Z)
    (w w1 : World) :
  (forall tarOutput,
     file_request filename serverEndpoint w = (Ok tarOutput, w1) ->
     no_response tarOutput = true ->
     file_entry filename serverEndpoint w = (Ok ∅, w1)) /\
  (forall status response,
     buffer_request string_ serverEndpoint w = (Ok (status, response), w1) ->
     no_response (Some (status, response)) = true ->
     buffer_entry string_ serverEndpoint w = (Ok ∅, w1)) /\
  (forall e,
     file_request filename serverEndpoint w = (Raise e, w1) ->
     file_entry filename serverEndpoint w = (Raise e, w1)) /\
  (forall e,
     buffer_request string_ serverEndpoint w = (Raise e, w1) ->
     buffer_entry string_ serverEndpoint w = (Raise e, w1)).
Proof.
  unfold from_file, from_buffer, bind. repeat split.
  - intros tarOutput -> Hresp. now apply parse_no_response.
  - intros status response -> Hresp. now apply parse_no_response.
  - now intros e ->.
  - now intros e ->.
Qed.

(** X21.  The two entry points decode alike: when their requests give the
    same response and leave the same world, they return the same result
    or raise the same exception, whatever the two statuses are. *)
Theorem entry_points_agree (filename string_ serverEndpoint : list Z)
    (w w1 : World) (s1 s2 : Z) (response : option (list Z)) :
  file_request filename serverEndpoint w = (Ok (Some (s1, response)), w1) ->
  buffer_request string_ serverEndpoint w = (Ok (s2, response), w1) ->
  file_entry filename serverEndpoint w = buffer_entry string_ serverEndpoint w.
Proof.
  unfold from_file, from_buffer, bind. intros -> ->.
  destruct response as [raw|]; [|reflexivity].
  destruct raw as [|b raw]; [reflexivity |].
  unfold _parse, bind, tarfile_open.
  destruct (read_archive (b :: raw)); [reflexivity |].
  now destruct (read_failure (b :: raw)) as [e []].
Qed.

End EntryFacts.

(** ** The added properties on concrete inputs *)

Lemma csv_plain_text_unchanged_witness :
  _csv_encode (lit "MyDoc") = Ok (lit "MyDoc") /\
  _csv_decode Sample.getcode (lit "MyDoc") = Ok (lit "MyDoc").
Proof.
  split.
  - apply (csv_plain_text_unchanged Sample.getcode (lit "MyDoc")).
    repeat constructor; vm_compute; congruence.
  - apply (csv_plain_text_unchanged Sample.getcode (lit "MyDoc")).
    repeat constructor; vm_compute; congruence.
Defined.

Lemma csv_decode_trailing_backslash_witness :
  _csv_decode Sample.getcode (lit "ab" ++ [ord "\"]) = Raise UnicodeDecodeError.
Proof.
  apply (csv_decode_trailing_backslash Sample.getcode (lit "ab")).
  repeat constructor; vm_compute; congruence.
Defined.

Lemma wrapped_csv_unescapes_rows_witness :
  _wrapped_csv Sample.getcode Sample.csv_reader
    (GYield (lit "k," ++ [0; 955]) GStop)
  = gen_app [[lit "k"; [0; 955]]] GStop.
Proof.
  apply (wrapped_csv_unescapes_rows Sample.getcode Sample.csv_reader
           (GYield (lit "k," ++ [0; 955]) GStop)
           [[lit "k"; [0; 955]]]
           [[lit "k"; lit "\x00\u03bb"]] GStop).
  - repeat (apply Forall_cons_2 || apply Forall_nil_2);
      vm_compute; split; discriminate.
  - repeat constructor.
  - reflexivity.
  - reflexivity.
Defined.


Lemma text_content_witness :
  exists parsed,
    fst (Sample.parse Sample.archive (Some (200, Some Sample.raw)) [])
    = Ok parsed /\
    parsed !! "content" = Some (Content (lit "hello world")).
Proof.
  exists (match fst (Sample.parse Sample.archive
                       (Some (200, Some Sample.raw)) []) with
          | Ok p => p
          | Raise _ => ∅
          end).
  split; [reflexivity |].
  apply (text_content Sample.getcode (Sample.reads Sample.raw Sample.archive) Sample.read_failure
           Sample._text_wrapper Sample.csv_reader 200 Sample.raw
           [] [TarOpen Sample.raw] Sample.archive
           (Sample.regular TEXT (lit "hello world")) (lit "hello world"));
    try reflexivity; [discriminate |].
  intros H. apply list_elem_of_In in H. vm_compute in H.
  repeat destruct H as [H|H]; try discriminate H; exact H.
Defined.

Lemma content_no_carriage_return_witness :
  13 ∉ [97; 10; 98].
Proof.
  apply (content_no_carriage_return Sample.getcode
           (Sample.reads Sample.raw Sample.crlf_text) Sample.read_failure
           Sample._text_wrapper Sample.csv_reader
           (Some (200, Some Sample.raw)) [] [TarOpen Sample.raw]
           (match fst (Sample.parse Sample.crlf_text
                         (Some (200, Some Sample.raw)) []) with
            | Ok p => p
            | Raise _ => ∅
            end)).
  - reflexivity.
  - vm_compute. reflexivity.
Defined.

Lemma invalid_text_raises_witness :
  fst (Sample.parse SampleServer.bad_text (Some (200, Some Sample.raw)) [])
  = Raise UnicodeDecodeError.
Proof.
  apply (invalid_text_raises Sample.getcode
           (Sample.reads Sample.raw SampleServer.bad_text) Sample.read_failure
           Sample._text_wrapper Sample.csv_reader 200 Sample.raw []
           SampleServer.bad_text (Sample.regular TEXT [104; 105; 255])).
  - discriminate.
  - reflexivity.
  - reflexivity.
  - reflexivity.
  - intros s. discriminate.
Defined.

Lemma metadata_keys_are_row_keys_witness :
  exists md,
    match fst (Sample.parse Sample.archive (Some (200, Some Sample.raw)) []) with
    | Ok parsed => parsed !! "metadata"
    | Raise _ => None
    end = Some (Metadata md) /\
    is_Some (md !! lit "Author").
Proof.
  destruct (metadata_keys_are_row_keys Sample.getcode
              (Sample.reads Sample.raw Sample.archive) Sample.read_failure
              Sample._text_wrapper Sample.csv_reader 200 Sample.raw
              [] [TarOpen Sample.raw] Sample.archive
              (Sample.regular METADATA
                 (lit "title,MyDoc" ++ [10] ++ lit "Author,Alice,Bob"))
              (match fst (Sample.parse Sample.archive
                            (Some (200, Some Sample.raw)) []) with
               | Ok p => p
               | Raise _ => ∅
               end)) as (md & Hmd & Hkeys).
  - discriminate.
  - reflexivity.
  - reflexivity.
  - reflexivity.
  - reflexivity.
  - exists md. split; [exact Hmd |]. apply Hkeys.
    exists [lit "Author"; lit "Alice"; lit "Bob"]. split; [|reflexivity].
    apply list_elem_of_In. vm_compute. auto.
Defined.

Lemma metadata_sequences_have_two_values_witness :
  sequences_long
    (<[lit "Author" := Sequence [lit "Alice"; lit "Bob"]]>
       (<[lit "title" := Scalar (lit "MyDoc" ++ [10])]> ∅)).
Proof.
  apply (metadata_sequences_have_two_values Sample.getcode
           (Sample.reads Sample.raw Sample.archive) Sample.read_failure
           Sample._text_wrapper Sample.csv_reader
           (Some (200, Some Sample.raw)) [] [TarOpen Sample.raw]
           (match fst (Sample.parse Sample.archive
                         (Some (200, Some Sample.raw)) []) with
            | Ok p => p
            | Raise _ => ∅
            end)).
  - reflexivity.
  - vm_compute. reflexivity.
Defined.

Lemma metadata_reader_outcome_witness :
  fst (_parse Sample.getcode (Sample.reads Sample.raw Sample.archive) Sample.read_failure
         Sample._text_wrapper SampleServer.failing_reader
         (Some (200, Some Sample.raw)) [])
  = Raise CsvError /\
  exists md,
    extract_metadata Sample.getcode Sample._text_wrapper Sample.csv_reader
      Sample.archive (tarfile.getnames Sample.archive)
    = Ok (md, list_remove METADATA (tarfile.getnames Sample.archive)).
Proof.
  split.
  - apply (metadata_reader_outcome Sample.getcode
             (Sample.reads Sample.raw Sample.archive) Sample.read_failure
             Sample._text_wrapper SampleServer.failing_reader 200 Sample.raw []
             Sample.archive
             (Sample.regular METADATA
                (lit "title,MyDoc" ++ [10] ++ lit "Author,Alice,Bob")));
      [discriminate | reflexivity | reflexivity | reflexivity
      | constructor | reflexivity].
  - apply (metadata_reader_outcome Sample.getcode
             (Sample.reads Sample.raw Sample.archive) Sample.read_failure
             Sample._text_wrapper Sample.csv_reader 200 Sample.raw []
             Sample.archive
             (Sample.regular METADATA
                (lit "title,MyDoc" ++ [10] ++ lit "Author,Alice,Bob")));
      [discriminate | reflexivity | reflexivity | reflexivity | | reflexivity].
    vm_compute. repeat constructor.
Defined.

Lemma attachments_only_regular_files_witness :
  lit "x/" ∈ remaining Sample.slashed_pair /\
  exists m, tarfile.getmember Sample.slashed_pair (lit "x/") = Ok m /\
            tarfile.isfile m = true /\
            [88; 88; 88] = tarfile.data m /\
            m ∈ Sample.slashed_pair /\
            tarfile.name m = tarfile.rstrip_slash (lit "x/").
Proof.
  apply (attachments_only_regular_files Sample.getcode
           (Sample.reads Sample.raw Sample.slashed_pair) Sample.read_failure
           Sample._text_wrapper Sample.csv_reader 200 Sample.raw
           [] [TarOpen Sample.raw] Sample.slashed_pair
           (match fst (Sample.parse Sample.slashed_pair
                         (Some (200, Some Sample.raw)) []) with
            | Ok p => p
            | Raise _ => ∅
            end)
           (<[lit "x/" := [88; 88; 88]]> (<[lit "x" := [88; 88; 88]]> ∅))).
  - discriminate.
  - reflexivity.
  - reflexivity.
  - vm_compute. reflexivity.
  - apply lookup_insert_eq.
Defined.

Lemma unique_special_names_not_attached_witness :
  exists a,
    match fst (Sample.parse Sample.archive (Some (200, Some Sample.raw)) []) with
    | Ok parsed => parsed !! "attachments"
    | Raise _ => None
    end = Some (Attachments a) /\
    a !! METADATA = None /\ a !! TEXT = None.
Proof.
  apply (unique_special_names_not_attached Sample.getcode
           (Sample.reads Sample.raw Sample.archive) Sample.read_failure
           Sample._text_wrapper Sample.csv_reader 200 Sample.raw
           [] [TarOpen Sample.raw] Sample.archive
           (match fst (Sample.parse Sample.archive
                         (Some (200, Some Sample.raw)) []) with
            | Ok p => p
            | Raise _ => ∅
            end)).
  - discriminate.
  - reflexivity.
  - refine (bool_decide_unpack _ _). vm_compute. exact I.
  - reflexivity.
Defined.

Lemma repeated_special_name_attached_witness :
  exists a,
    match fst (Sample.parse SampleServer.two_texts
                 (Some (200, Some Sample.raw)) []) with
    | Ok parsed => parsed !! "attachments"
    | Raise _ => None
    end = Some (Attachments a) /\
    a !! TEXT = Some (lit "second").
Proof.
  apply (repeated_special_name_attached Sample.getcode
           (Sample.reads Sample.raw SampleServer.two_texts) Sample.read_failure
           Sample._text_wrapper Sample.csv_reader 200 Sample.raw
           [] [TarOpen Sample.raw] SampleServer.two_texts
           (Sample.regular TEXT (lit "second")) TEXT
           (match fst (Sample.parse SampleServer.two_texts
                         (Some (200, Some Sample.raw)) []) with
            | Ok p => p
            | Raise _ => ∅
            end)).
  - discriminate.
  - reflexivity.
  - now right.
  - apply list_elem_of_In. vm_compute. auto.
  - reflexivity.
  - reflexivity.
  - reflexivity.
Defined.

Lemma members_with_distinct_names_witness :
  (exists a,
     match fst (Sample.parse Sample.archive
                  (Some (200, Some Sample.raw)) []) with
     | Ok parsed => parsed !! "attachments"
     | Raise _ => None
     end = Some (Attachments a) /\
     a !! lit "img/image.png" = Some [137; 80; 78; 71; 0; 255]) /\
  (exists a,
     match fst (Sample.parse Sample.slashed_link
                  (Some (200, Some Sample.raw)) []) with
     | Ok parsed => parsed !! "attachments"
     | Raise _ => None
     end = Some (Attachments a) /\
     a !! lit "x/" = Some [88; 88; 88]).
Proof.
  split.
  - destruct (members_with_distinct_names Sample.getcode
                (Sample.reads Sample.raw Sample.archive) Sample.read_failure
                Sample._text_wrapper Sample.csv_reader 200 Sample.raw
                [] [TarOpen Sample.raw] Sample.archive
                (Sample.regular (lit "img/image.png") [137; 80; 78; 71; 0; 255])
                (match fst (Sample.parse Sample.archive
                              (Some (200, Some Sample.raw)) []) with
                 | Ok p => p
                 | Raise _ => ∅
                 end))
      as (a & m' & Hatt & _ & _ & _ & Hlook & Hsame).
    + discriminate.
    + reflexivity.
    + refine (bool_decide_unpack _ _). vm_compute. exact I.
    + apply list_elem_of_In. vm_compute. auto 10.
    + discriminate.
    + discriminate.
    + reflexivity.
    + rewrite (Hsame eq_refl) in Hlook. exists a. split; [exact Hatt | exact Hlook].
  - destruct (members_with_distinct_names Sample.getcode
                (Sample.reads Sample.raw Sample.slashed_link) Sample.read_failure
                Sample._text_wrapper Sample.csv_reader 200 Sample.raw
                [] [TarOpen Sample.raw] Sample.slashed_link
                (Sample.symlink (lit "x/"))
                (match fst (Sample.parse Sample.slashed_link
                              (Some (200, Some Sample.raw)) []) with
                 | Ok p => p
                 | Raise _ => ∅
                 end))
      as (a & m' & Hatt & Hget & _ & _ & Hlook & _).
    + discriminate.
    + reflexivity.
    + refine (bool_decide_unpack _ _). vm_compute. exact I.
    + apply list_elem_of_In. vm_compute. auto 10.
    + discriminate.
    + discriminate.
    + reflexivity.
    + change (Ok (Sample.regular (lit "x") [88; 88; 88]) = Ok m') in Hget.
      injection Hget as <-. exists a. split; [exact Hatt | exact Hlook].
Defined.


Lemma entry_points_empty_response_witness :
  from_file Sample.getcode (Sample.reads Sample.raw Sample.archive) Sample.read_failure
    Sample._text_wrapper Sample.csv_reader
    (SampleServer.parse1 (Some (200, None))) (lit "doc.pdf") (lit "http://s") []
  = (Ok ∅, []) /\
  from_buffer Sample.getcode (Sample.reads Sample.raw Sample.archive) Sample.read_failure
    Sample._text_wrapper Sample.csv_reader
    (SampleServer.callServer (200, Some [])) (lit "text") (lit "http://s") []
  = (Ok ∅, []).
Proof.
  split.
  - apply (entry_points_empty_response Sample.getcode
             (Sample.reads Sample.raw Sample.archive) Sample.read_failure
             Sample._text_wrapper Sample.csv_reader
             (SampleServer.parse1 (Some (200, None)))
             (SampleServer.callServer (200, Some []))
             (lit "doc.pdf") (lit "text") (lit "http://s") [] [])
      with (tarOutput := Some (200, None)); reflexivity.
  - apply (entry_points_empty_response Sample.getcode
             (Sample.reads Sample.raw Sample.archive) Sample.read_failure
             Sample._text_wrapper Sample.csv_reader
             (SampleServer.parse1 (Some (200, None)))
             (SampleServer.callServer (200, Some []))
             (lit "doc.pdf") (lit "text") (lit "http://s") [] [])
      with (status := 200) (response := Some []); reflexivity.
Defined.

Lemma entry_points_agree_witness :
  from_file Sample.getcode (Sample.reads Sample.raw Sample.archive) Sample.read_failure
    Sample._text_wrapper Sample.csv_reader
    (SampleServer.parse1 (Some (200, Some Sample.raw)))
    (lit "doc.pdf") (lit "http://s") []
  = from_buffer Sample.getcode (Sample.reads Sample.raw Sample.archive) Sample.read_failure
      Sample._text_wrapper Sample.csv_reader
      (SampleServer.callServer (500, Some Sample.raw))
      (lit "text") (lit "http://s") [].
Proof.
  apply (entry_points_agree Sample.getcode
           (Sample.reads Sample.raw Sample.archive) Sample.read_failure
           Sample._text_wrapper Sample.csv_reader
           (SampleServer.parse1 (Some (200, Some Sample.raw)))
           (SampleServer.callServer (500, Some Sample.raw))
           (lit "doc.pdf") (lit "text") (lit "http://s") [] [] 200 500
           (Some Sample.raw)); reflexivity.
Defined.

(** ** What a decode can raise *)

Module FailureFacts.
Import Codec.


(** ASCII bytes are their own UTF-8 decoding. *)
Lemma utf8_decode_ascii b :
  Forall (fun c => 0 <= c < 128) b -> utf8_decode b = Ok b.
Proof.
  induction 1 as [|c b Hc _ IH]; [reflexivity |]. cbn [utf8_decode].
  destruct (Z.ltb_spec c 128); [|lia]. now rewrite IH.
Qed.

End FailureFacts.

Section Failures.
Import tarfile TarFacts NameFacts TextFacts FailureFacts.

Variable getcode : list Z -> option Z.
Variable read_archive : list Z -> option TarFile.
Variable read_failure : list Z -> exn * bool.
Variable _text_wrapper : list Z -> Gen (list Z).
Variable csv_reader : Gen (list Z) -> Gen (list (list Z)).

Local Abbreviation parse := (_parse getcode read_archive read_failure _text_wrapper csv_reader).
Local Abbreviation metadata_block :=
  (extract_metadata getcode _text_wrapper csv_reader).
Local Abbreviation rows_of :=
  (fun m : TarInfo =>
     _wrapped_csv getcode csv_reader (_text_wrapper (extractfile_read m))).


(** X23.  When [__TEXT__] denotes a regular file of ASCII bytes with no
    carriage return among them, the content of a result is these bytes,
    one character for each. *)
Theorem ascii_text_content (st : Z) (raw : list Z) (w w' : World) (t : TarFile)
    (m : TarInfo) (parsed : gmap string Field) :
  raw <> [] ->
  read_archive raw = Some t ->
  getmember t TEXT = Ok m ->
  isfile m = true ->
  Forall (fun c => 0 <= c < 128 /\ c <> 13) (data m) ->
  parse (Some (st, Some raw)) w = (Ok parsed, w') ->
  parsed !! "content" = Some (Content (data m)).
Proof.
  intros Hraw Ht Hm Hfile Hascii Hparse.
  destruct (parse_Ok_blocks _ _ _ _ _ _ _ _ _ _ _ Hraw Ht Hparse)
    as (md & c & a & _ & Hc & _ & ->).
  rewrite (extract_content_file _ _ m) in Hc; try done.
  - unfold _text_wrapper_utf8_read, extractfile_read, exc_map in Hc.
    rewrite utf8_decode_ascii in Hc
      by (eapply Forall_impl; [exact Hascii | now intros c' [? _]]).
    cbn [exc_bind] in Hc. rewrite universal_newlines_id in Hc.
    + injection Hc as <-. now rewrite !lookup_insert.
    + intros Hcr. rewrite Forall_forall in Hascii.
      now destruct (Hascii _ Hcr).
  - apply list_remove_other; [discriminate |].
    now apply (getmember_in_names _ _ m rstrip_TEXT).
Qed.

End Failures.


Lemma ascii_text_content_witness :
  match fst (Sample.parse Sample.archive (Some (200, Some Sample.raw)) []) with
  | Ok parsed => parsed !! "content"
  | Raise _ => None
  end = Some (Content (lit "hello world")).
Proof.
  apply (ascii_text_content Sample.getcode
           (Sample.reads Sample.raw Sample.archive) Sample.read_failure
           Sample._text_wrapper Sample.csv_reader 200 Sample.raw
           [] [TarOpen Sample.raw] Sample.archive
           (Sample.regular TEXT (lit "hello world"))
           (match fst (Sample.parse Sample.archive
                         (Some (200, Some Sample.raw)) []) with
            | Ok p => p
            | Raise _ => ∅
            end)).
  - discriminate.
  - reflexivity.
  - reflexivity.
  - reflexivity.
  - repeat (apply Forall_cons_2 || apply Forall_nil_2);
      vm_compute; repeat split; discriminate.
  - reflexivity.
Defined.
